(** * The CPU [Cast] operator: type-pair dispatch and element conversion

    A shallow embedding of
    [onnxruntime/core/providers/cpu/tensor/cast_op.cc]: the string cast
    helpers ([CastToString], [CastFromString]), the buffer casters
    ([TensorCaster] and its specializations), the two-level dispatcher
    ([SrcDispatcher], [Dispatcher]) and the kernel entry point
    ([Cast::Compute]), followed by the properties established for them. *)

From Stdlib Require Import ZArith String Ascii List Lia Bool.
From Stdlib Require Import SpecFloat DecimalString DecimalPos DecimalZ.
From stdpp Require Import gmap.

Local Open Scope string_scope.
Local Open Scope Z_scope.

(** ** Element kinds *)

(** The element types named by the two
    [ORT_SPECIFY_OP_KERNEL_ARG_SUPPORTED_TYPES] declarations. *)
Inductive ElemType : Type :=
| t_bool
| t_float | t_double
| t_uint8_t | t_uint16_t | t_uint32_t | t_uint64_t
| t_int8_t | t_int16_t | t_int32_t | t_int64_t
| t_MLFloat16 | t_BFloat16
| t_string.

#[global] Instance ElemType_eq_dec : EqDecision ElemType.
Proof. solve_decision. Defined.

(** [Cast, Input, 0] and [Cast, Output, 0]: the same fourteen types. *)
Definition SupportedSrcTypes : list ElemType :=
  [ t_bool; t_float; t_double;
    t_uint8_t; t_uint16_t; t_uint32_t; t_uint64_t;
    t_int8_t; t_int16_t; t_int32_t; t_int64_t;
    t_MLFloat16; t_BFloat16; t_string ].

Definition SupportedDstTypes : list ElemType :=
  [ t_bool; t_float; t_double;
    t_uint8_t; t_uint16_t; t_uint32_t; t_uint64_t;
    t_int8_t; t_int16_t; t_int32_t; t_int64_t;
    t_MLFloat16; t_BFloat16; t_string ].

(** [utils::ToTensorProtoElementType<T>()]: the value of
    [ONNX_NAMESPACE::TensorProto_DataType] standing for [T].  The
    enumeration is declared by ONNX (FLOAT = 1, UINT8 = 2, INT8 = 3,
    UINT16 = 4, INT16 = 5, INT32 = 6, INT64 = 7, STRING = 8, BOOL = 9,
    FLOAT16 = 10, DOUBLE = 11, UINT32 = 12, UINT64 = 13, BFLOAT16 = 16);
    the remaining values (UNDEFINED = 0, COMPLEX64 = 14, COMPLEX128 = 15,
    ...) stand for no type of the lists above. *)
Definition ToTensorProtoElementType (t : ElemType) : Z :=
  match t with
  | t_float => 1
  | t_uint8_t => 2
  | t_int8_t => 3
  | t_uint16_t => 4
  | t_int16_t => 5
  | t_int32_t => 6
  | t_int64_t => 7
  | t_string => 8
  | t_bool => 9
  | t_MLFloat16 => 10
  | t_double => 11
  | t_uint32_t => 12
  | t_uint64_t => 13
  | t_BFloat16 => 16
  end.

(** The type traits the overloads of the string helpers select on.
    [MLFloat16], [BFloat16] and [std::string] are class types: none of
    the traits holds for them.  [bool] is an unsigned integral type. *)
Definition is_floating_point (t : ElemType) : bool :=
  match t with
  | t_float | t_double => true
  | _ => false
  end.

Definition is_integral (t : ElemType) : bool :=
  match t with
  | t_bool
  | t_uint8_t | t_uint16_t | t_uint32_t | t_uint64_t
  | t_int8_t | t_int16_t | t_int32_t | t_int64_t => true
  | _ => false
  end.

Definition is_unsigned (t : ElemType) : bool :=
  match t with
  | t_bool | t_uint8_t | t_uint16_t | t_uint32_t | t_uint64_t => true
  | _ => false
  end.

Definition is_signed (t : ElemType) : bool :=
  match t with
  | t_int8_t | t_int16_t | t_int32_t | t_int64_t
  | t_float | t_double => true
  | _ => false
  end.

(** Width in bits of the integer types ([bool] converts by comparison
    with zero and has no width here). *)
Definition bit_width (t : ElemType) : Z :=
  match t with
  | t_uint8_t | t_int8_t => 8
  | t_uint16_t | t_int16_t => 16
  | t_uint32_t | t_int32_t => 32
  | t_uint64_t | t_int64_t => 64
  | _ => 0
  end.

(** The eight integer kinds proper: signed and unsigned, 8 to 64 bits. *)
Definition is_integer_kind (t : ElemType) : bool :=
  is_integral t && negb (bool_decide (t = t_bool)).

(** ** Exceptions and results *)

(** What [std::stod], [std::stoull] and [std::stoll] throw. *)
Inductive ParseError : Type :=
| invalid_argument
| out_of_range.

(** Every exception that leaves the code of this file. *)
Inductive Exception : Type :=
| StdException (e : ParseError)
    (* thrown by the text parsers *)
| UnsupportedDataType (dt : Z)
    (* thrown by MLTypeCallDispatcher when no type of its list matches *)
| TempSpaceAllocatorFailed.
    (* ORT_THROW_IF_ERROR(context.GetTempSpaceAllocator(...)) *)

Inductive Result (E A : Type) : Type :=
| Ok (a : A)
| Throw (e : E).

Arguments Ok {E A} a.
Arguments Throw {E A} e.

Definition is_Ok {E A} (r : Result E A) : bool :=
  match r with Ok _ => true | Throw _ => false end.

Definition map_Result {E A B} (f : A -> B) (r : Result E A) : Result E B :=
  match r with Ok a => Ok (f a) | Throw e => Throw e end.

Definition lift_parse {A} (r : Result ParseError A) : Result Exception A :=
  match r with Ok a => Ok a | Throw e => Throw (StdException e) end.

(** ** Integer conversions *)

Definition LLONG_MIN : Z := - 2 ^ 63.
Definition LLONG_MAX : Z := 2 ^ 63 - 1.
Definition ULLONG_MAX : Z := 2 ^ 64 - 1.

(** Two's complement reduction of [z] to [w] bits, signed reading. *)
Definition wrap_signed (w z : Z) : Z :=
  (z + 2 ^ (w - 1)) mod 2 ^ w - 2 ^ (w - 1).

(** Reduction of [z] to [w] bits, unsigned reading. *)
Definition wrap_unsigned (w z : Z) : Z := z mod 2 ^ w.

(** [static_cast<DstType>(z)] (which is [gsl::narrow_cast]) from an
    integer value to an integral type: no range check; [bool] tests
    against zero, the integer types keep the low bits. *)
Definition narrow_cast_integral (d : ElemType) (z : Z) : Z :=
  match d with
  | t_bool => if z =? 0 then 0 else 1
  | _ => if is_unsigned d then wrap_unsigned (bit_width d) z
         else wrap_signed (bit_width d) z
  end.

(** ** The C++ library's integer text conversions *)

(** [isspace] in the "C" locale. *)
Definition is_space (c : ascii) : bool :=
  let n := Z.of_N (N_of_ascii c) in
  (n =? 32) || ((9 <=? n) && (n <=? 13)).

Definition digit_of (c : ascii) : option Z :=
  let n := Z.of_N (N_of_ascii c) in
  if (48 <=? n) && (n <=? 57) then Some (n - 48) else None.

Fixpoint skip_spaces (s : string) : string :=
  match s with
  | String c s' => if is_space c then skip_spaces s' else s
  | EmptyString => s
  end.

(** The longest run of decimal digits at the head of [s]: its value on
    top of [acc], and how many digits were read. *)
Fixpoint scan_digits (s : string) (acc : Z) (n : nat) : Z * nat :=
  match s with
  | String c s' =>
      match digit_of c with
      | Some d => scan_digits s' (10 * acc + d) (S n)
      | None => (acc, n)
      end
  | EmptyString => (acc, n)
  end.

(** The subject sequence of [strtoll]/[strtoull] in base 10: white space,
    an optional sign, decimal digits; whatever follows is left unread.
    [None] when no digit is found (no conversion is performed). *)
Definition scan_integer (s : string) : option (bool * Z) :=
  let s1 := skip_spaces s in
  let '(neg, s2) :=
    match s1 with
    | String "-" r => (true, r)
    | String "+" r => (false, r)
    | _ => (false, s1)
    end in
  match scan_digits s2 0 0%nat with
  | (_, O) => None
  | (v, S _) => Some (neg, v)
  end.

(** [std::stoll(str)]: [invalid_argument] when no conversion could be
    performed, [out_of_range] when [strtoll] reports [ERANGE]. *)
Definition stoll (s : string) : Result ParseError Z :=
  match scan_integer s with
  | None => Throw invalid_argument
  | Some (neg, mag) =>
      let v := if neg then - mag else mag in
      if (LLONG_MIN <=? v) && (v <=? LLONG_MAX) then Ok v
      else Throw out_of_range
  end.

(** [std::stoull(str)]: as [stoll], except that the range is that of
    [unsigned long long] and that a minus sign negates the value in the
    unsigned type. *)
Definition stoull (s : string) : Result ParseError Z :=
  match scan_integer s with
  | None => Throw invalid_argument
  | Some (neg, mag) =>
      if mag <=? ULLONG_MAX
      then Ok (if neg then wrap_unsigned 64 (- mag) else mag)
      else Throw out_of_range
  end.

(** [operator<<] of an output stream for the integral types, under the
    stream's default flags: [bool] prints as 0 or 1; [int8_t] and
    [uint8_t] are [signed char] and [unsigned char], for which the
    stream inserts the character with that code; the wider types print
    in decimal. *)
Definition decimal_of_Z (z : Z) : string :=
  NilZero.string_of_int (Z.to_int z).

Definition ostream_put_integral (s : ElemType) (z : Z) : string :=
  match s with
  | t_int8_t | t_uint8_t =>
      String (ascii_of_N (Z.to_N (wrap_unsigned 8 z))) EmptyString
  | _ => decimal_of_Z z
  end.

(** ** Floating-point values *)

(** [float] and [double] values are IEEE 754 binary32 and binary64
    numbers, written as [spec_float]; [prec] and [emax] of each format: *)
Definition float_prec (t : ElemType) : Z :=
  match t with t_double => 53 | _ => 24 end.

Definition float_emax (t : ElemType) : Z :=
  match t with t_double => 1024 | _ => 128 end.

Definition std_isnan (f : spec_float) : bool :=
  match f with S754_nan => true | _ => false end.

Definition std_isinf (f : spec_float) : bool :=
  match f with S754_infinity _ => true | _ => false end.

Definition is_finite (f : spec_float) : bool :=
  match f with
  | S754_zero _ | S754_finite _ _ _ => true
  | _ => false
  end.

(** [std::numeric_limits<SrcType>::lowest()]: the most negative finite
    value of the format. *)
Definition numeric_limits_lowest (t : ElemType) : spec_float :=
  SFopp (SFmax_float (float_prec t) (float_emax t)).

(** The value [f] brought into the format [prec], [emax], round to
    nearest even. *)
Definition round_to_format (prec emax : Z) (f : spec_float) : spec_float :=
  match f with
  | S754_finite s m e => binary_normalize prec emax (cond_Zopp s (Zpos m)) e s
  | _ => f
  end.

(** [static_cast<float>(double)]. *)
Definition double_to_float (f : spec_float) : spec_float :=
  round_to_format 24 128 f.

(** [gsl::narrow_cast<DstType>(double)] for the two floating types. *)
Definition narrow_cast_floating (d : ElemType) (f : spec_float) : spec_float :=
  match d with
  | t_float => double_to_float f
  | _ => f
  end.

(** ** Element values *)

(** One element of a tensor buffer.  A tensor of an integral kind holds
    [VInt] (for [bool], 0 or 1), one of kind [float] or [double] holds
    [VFp], one of kind [MLFloat16] or [BFloat16] holds [VHalf] (the 16
    bits of the member [val]), one of kind [std::string] holds [VStr]. *)
Inductive Value : Type :=
| VInt (z : Z)
| VFp (f : spec_float)
| VHalf (val : Z)
| VStr (s : string).

Definition as_int (v : Value) : Z :=
  match v with VInt z => z | _ => 0 end.

Definition as_fp (v : Value) : spec_float :=
  match v with VFp f => f | _ => S754_zero false end.

Definition as_half (v : Value) : Z :=
  match v with VHalf b => b | _ => 0 end.

Definition as_str (v : Value) : string :=
  match v with VStr s => s | _ => EmptyString end.

(** ** What the file calls and does not define

    The routines of the C++ library, of the framework's 16-bit float
    types and of Eigen that the source calls on floating-point data.
    The development is parametric in them. *)
Class Externals : Type := {
  (** [stream << std::setprecision(p) << x] for a [float] or [double]
      [x] that is neither a NaN nor an infinity, on a fresh
      [std::ostringstream]: the characters written. *)
  ostream_put_floating : Z -> spec_float -> string;
  (** [std::stod(str)]. *)
  std_stod : string -> Result ParseError spec_float;
  (** [static_cast<float>(const MLFloat16&)] and
      [static_cast<float>(const BFloat16&)], on the 16 bits. *)
  MLFloat16_to_float : Z -> spec_float;
  BFloat16_to_float : Z -> spec_float;
  (** [static_cast<MLFloat16>(float)] and [static_cast<BFloat16>(float)]. *)
  float_to_MLFloat16 : spec_float -> Z;
  float_to_BFloat16 : spec_float -> Z;
  (** Eigen's [cast<EigenDstType>()] on one element of type
      [EigenSrcType], for the pairs of numeric types of which at least
      one is not integral. *)
  eigen_cast_floating : ElemType -> ElemType -> Value -> Value
}.

(** ** String cast helpers *)

Section StringCastHelpers.
Context `{Externals}.

(** [CastToString] for [std::is_floating_point<SrcType>]. *)
Definition CastToString_floating (s : ElemType) (input : spec_float) : string :=
  if std_isnan input then "NaN"
  else if std_isinf input then
    if SFltb input (numeric_limits_lowest s) then "-INF" else "INF"
  else
    (* setprecision to 8 to match numpy default behavior *)
    ostream_put_floating 8 input.

(** [CastToString] for [!std::is_floating_point<SrcType>]. *)
Definition CastToString_non_floating (s : ElemType) (input : Value) : string :=
  match s with
  | t_string => as_str input
  | _ => ostream_put_integral s (as_int input)
  end.

(** [CastToString(input, output)] for an element of type [s]: the
    overloads for [MLFloat16] and [BFloat16], then the two templates.
    The value returned is what the call assigns to [output]. *)
Definition CastToString (s : ElemType) (input : Value) : string :=
  match s with
  | t_MLFloat16 => CastToString_floating t_float (MLFloat16_to_float (as_half input))
  | t_BFloat16 => CastToString_floating t_float (BFloat16_to_float (as_half input))
  | _ =>
      if is_floating_point s then CastToString_floating s (as_fp input)
      else CastToString_non_floating s input
  end.

(** [CastFromString] for [std::is_floating_point<DstType>]. *)
Definition CastFromString_floating (d : ElemType) (input : string)
  : Result ParseError Value :=
  map_Result (fun x => VFp (narrow_cast_floating d x)) (std_stod input).

(** [CastFromString] for unsigned integral [DstType]. *)
Definition CastFromString_unsigned (d : ElemType) (input : string)
  : Result ParseError Value :=
  map_Result (fun x => VInt (narrow_cast_integral d x)) (stoull input).

(** [CastFromString] for signed integral [DstType]. *)
Definition CastFromString_signed (d : ElemType) (input : string)
  : Result ParseError Value :=
  map_Result (fun x => VInt (narrow_cast_integral d x)) (stoll input).

(** [CastFromString(input, output)] for a destination of type [d]: the
    value assigned to [output], or the exception thrown.  No overload
    exists for [std::string]; the pair (string, string) is never
    instantiated, and the text is returned as it is there. *)
Definition CastFromString (d : ElemType) (input : string)
  : Result ParseError Value :=
  match d with
  | t_MLFloat16 =>
      map_Result (fun intermediate => VHalf (float_to_MLFloat16 (as_fp intermediate)))
                 (CastFromString_floating t_float input)
  | t_BFloat16 =>
      map_Result (fun intermediate => VHalf (float_to_BFloat16 (as_fp intermediate)))
                 (CastFromString_floating t_float input)
  | t_string => Ok (VStr input)
  | _ =>
      if is_floating_point d then CastFromString_floating d input
      else if is_integral d && is_unsigned d then CastFromString_unsigned d input
      else CastFromString_signed d input
  end.

End StringCastHelpers.

(** ** Tensors, buffers and the execution state *)

(** Buffers are named by addresses. *)
Abbreviation addr := positive (only parsing).

(** A tensor: its element type (a [TensorProto_DataType] value), its
    shape and the buffer that holds its elements. *)
Record Tensor : Type := {
  dtype : Z;
  Shape : list N;
  data : addr
}.

(** Modelled from the spec: [TensorShape::Size()] is declared outside
    this file; the shape is a sequence of non-negative dimension sizes
    and the element count is their product. *)
Definition Size (shape : list N) : N := fold_right N.mul 1%N shape.

(** The calls the properties below speak about. *)
Inductive Event : Type :=
| CallCopyCpuTensor
| CallMLTypeCallDispatcher (dt : Z)
| CallSrcDispatcher (s : ElemType)
| CallDispatcher (s d : ElemType)
| CallTensorCaster (s d : ElemType).

(** The memory (one list of elements per live buffer), the output slot
    of the kernel context and the calls made so far. *)
Record State : Type := {
  heap : gmap addr (list Value);
  output0 : option Tensor;
  trace : list Event
}.

(** What the kernel reads from its [OpKernelContext]: input 0, the
    element type and the buffer the framework gives output 0 (the
    kernel is registered with [MayInplace(0, 0)], so that buffer may be
    the input's), and whether a temporary-space allocator is there. *)
Record OpKernelContext : Type := {
  Input0 : Tensor;
  Output0_type : Z;
  Output0_data : addr;
  TempSpaceAllocator : bool
}.

(** Compile-time configuration: whether [_M_AMD64] is defined, and the
    two enabled type lists ([ORT_OP_KERNEL_ARG_ENABLED_TYPE_LIST] of the
    input and of the output; the supported lists above unless the build
    reduces them). *)
Record BuildConfig : Type := {
  M_AMD64 : bool;
  EnabledSrcTypes : list ElemType;
  EnabledDstTypes : list ElemType
}.

Inductive Status : Type := Status_OK.

(** Computations: a state transformer that returns or throws.  The
    state reached is kept in both cases: what was written before an
    exception stays written. *)
Definition M (A : Type) : Type := State -> Result Exception A * State.

Definition ret {A} (a : A) : M A := fun st => (Ok a, st).

Definition throw {A} (e : Exception) : M A := fun st => (Throw e, st).

Definition bind {A B} (m : M A) (k : A -> M B) : M B :=
  fun st =>
    match m st with
    | (Ok a, st') => k a st'
    | (Throw e, st') => (Throw e, st')
    end.

(** [finally m cleanup]: run [cleanup] when [m] is left, by return or by
    exception (a destructor at the end of a scope). *)
Definition finally {A} (m : M A) (cleanup : State -> State) : M A :=
  fun st => let '(r, st') := m st in (r, cleanup st').

Declare Scope cast_scope.
Delimit Scope cast_scope with cast.
Notation "x <- m ;; k" := (bind m (fun x => k))
  (at level 100, m at next level, right associativity) : cast_scope.
Notation "m ;;; k" := (bind m (fun _ => k))
  (at level 100, right associativity) : cast_scope.
Local Open Scope cast_scope.

Definition set_heap (f : gmap addr (list Value) -> gmap addr (list Value))
  (st : State) : State :=
  {| heap := f (heap st); output0 := output0 st; trace := trace st |}.

Definition log (ev : Event) : M unit :=
  fun st => (Ok tt, {| heap := heap st; output0 := output0 st;
                       trace := trace st ++ [ev] |}).

(** [p[i]] read from the buffer at [a].  (A read outside a live buffer
    has no defined value in the source; it gives [VInt 0] here.) *)
Definition load (a : addr) (i : nat) : M Value :=
  fun st => (Ok (default (VInt 0) (heap st !! a ≫= (.!! i))), st).

(** [p[i] = v] on the buffer at [a]. *)
Definition store (a : addr) (i : nat) (v : Value) : M unit :=
  fun st => (Ok tt, set_heap (alter (<[i := v]>) a) st).

(** [for (i = first; i < first + n; ++i) body(i)]. *)
Fixpoint for_loop (n : nat) (first : nat) (body : nat -> M unit) : M unit :=
  match n with
  | O => ret tt
  | S n' => body first ;;; for_loop n' (S first) body
  end.

(** [context->Output(0, shape)]: the output tensor, of the element type
    and on the buffer the framework chose, with the shape asked for. *)
Definition Output (ctx : OpKernelContext) (shape : list N) : M Tensor :=
  fun st =>
    let Y := {| dtype := Output0_type ctx; Shape := shape; data := Output0_data ctx |} in
    (Ok Y, {| heap := heap st; output0 := Some Y; trace := trace st |}).

(** Modelled from the spec: [CopyCpuTensor] is declared in
    [core/providers/cpu/tensor/utils.h]; it performs a buffer copy with
    memory-duplicate semantics, and is a no-op when source and
    destination buffers are the same underlying memory. *)
Definition CopyCpuTensor (src tgt : Tensor) : M unit :=
  log CallCopyCpuTensor ;;;
  if decide (data tgt = data src) then ret tt
  else fun st =>
    (Ok tt, set_heap (fun h => partial_alter (fun _ => h !! data src) (data tgt) h) st).

(** ** Buffer casters *)

Section Casters.
Context `{Externals} (cfg : BuildConfig).

(** Eigen's [cast<EigenDstType>()] on one element: [static_cast] between
    two integral types, the external routine otherwise. *)
Definition eigen_cast (s d : ElemType) (v : Value) : Value :=
  if is_integral s && is_integral d
  then VInt (narrow_cast_integral d (as_int v))
  else eigen_cast_floating s d v.

(** The generic [TensorCaster<SrcType, DstType>]:
    [out_vector = in_vector.template cast<EigenDstType>()]. *)
Definition TensorCaster_generic (s d : ElemType)
  (inp out : Tensor) (shape : list N) : M unit :=
  let shape_size := N.to_nat (Size shape) in
  for_loop shape_size 0%nat (fun i =>
    x <- load (data inp) i ;;
    store (data out) i (eigen_cast s d x)).

(** [TensorCaster<SrcType, std::string>]. *)
Definition TensorCaster_to_string (s : ElemType)
  (inp out : Tensor) (shape : list N) : M unit :=
  let shape_size := N.to_nat (Size shape) in
  for_loop shape_size 0%nat (fun i =>
    x <- load (data inp) i ;;
    store (data out) i (VStr (CastToString s x))).

(** [TensorCaster<std::string, DstType>]. *)
Definition TensorCaster_from_string (d : ElemType)
  (inp out : Tensor) (shape : list N) : M unit :=
  let shape_size := N.to_nat (Size shape) in
  for_loop shape_size 0%nat (fun i =>
    x <- load (data inp) i ;;
    match CastFromString d (as_str x) with
    | Ok y => store (data out) i y
    | Throw e => throw (StdException e)
    end).

(** Modelled from the spec: [MlasConvertHalfToFloatBuffer] is declared
    in [core/mlas/inc/mlas.h]; it is the accelerated bulk routine for
    reduced-precision float to 32-bit float, a drop-in, output-equivalent
    replacement of the generic conversion: element [i] of the
    destination receives the [float] that element [i] of the source
    converts to, for every [i] below [Count]. *)
Definition MlasConvertHalfToFloatBuffer (Source Destination : addr) (Count : nat)
  : M unit :=
  for_loop Count 0%nat (fun i =>
    x <- load Source i ;;
    store Destination i (VFp (MLFloat16_to_float (as_half x)))).

(** [TensorCaster<MLFloat16, float>] under [_M_AMD64]. *)
Definition TensorCaster_MLFloat16_float
  (inp out : Tensor) (shape : list N) : M unit :=
  let shape_size := N.to_nat (Size shape) in
  MlasConvertHalfToFloatBuffer (data inp) (data out) shape_size.

(** The caster [TensorCaster<s, d>] names when the specializations for
    [MLFloat16] are not compiled in, or do not apply to [s]. *)
Definition TensorCaster_primary (s d : ElemType)
  (inp out : Tensor) (shape : list N) : M unit :=
  log (CallTensorCaster s d) ;;;
  if decide (d = t_string) then TensorCaster_to_string s inp out shape
  else if decide (s = t_string) then TensorCaster_from_string d inp out shape
  else TensorCaster_generic s d inp out shape.

(** [IAllocator::MakeUniquePtr<float>(allocator, n)]: a buffer of [n]
    floats nothing else points to. *)
Definition MakeUniquePtr (n : nat) : M addr :=
  fun st =>
    let a := fresh (dom (heap st)) in
    (Ok a, set_heap (insert a (replicate n (VFp (S754_zero false)))) st).

(** [CastMLFloat16ThroughFloat<DstType>]: optimized MLFloat16 -> float,
    then float -> DstType.  The intermediate buffer is released when
    the function is left. *)
Definition CastMLFloat16ThroughFloat (d : ElemType) (context : OpKernelContext)
  (inp out : Tensor) (shape : list N) : M unit :=
  if negb (TempSpaceAllocator context) then throw TempSpaceAllocatorFailed
  else
    intermediate_buffer <- MakeUniquePtr (N.to_nat (Size shape)) ;;
    finally
      (let intermediate_tensor :=
         {| dtype := ToTensorProtoElementType t_float; Shape := shape;
            data := intermediate_buffer |} in
       log (CallTensorCaster t_MLFloat16 t_float) ;;;
       TensorCaster_MLFloat16_float inp intermediate_tensor shape ;;;
       TensorCaster_primary t_float d intermediate_tensor out shape)
      (set_heap (delete intermediate_buffer)).

(** [TensorCaster<s, d>{}.Cast(context, in, out, shape)], by the
    specialization the compiler selects. *)
Definition TensorCaster (s d : ElemType) (context : OpKernelContext)
  (inp out : Tensor) (shape : list N) : M unit :=
  if M_AMD64 cfg && bool_decide (s = t_MLFloat16) then
    if decide (d = t_float) then
      log (CallTensorCaster t_MLFloat16 t_float) ;;;
      TensorCaster_MLFloat16_float inp out shape
    else
      log (CallTensorCaster t_MLFloat16 d) ;;;
      CastMLFloat16ThroughFloat d context inp out shape
  else TensorCaster_primary s d inp out shape.

(** ** Dispatch *)

(** Modelled from the spec: [utils::MLTypeCallDispatcherFromTypeList] is
    declared in [core/framework/data_types_internal.h]; dispatch on a
    kind is restricted to the given type list, and an unknown or
    disabled kind fails with an unsupported-type error. *)
Definition MLTypeCallDispatcher_Invoke {A} (types : list ElemType) (dt : Z)
  (fn : ElemType -> M A) : M A :=
  log (CallMLTypeCallDispatcher dt) ;;;
  match List.find (fun t => ToTensorProtoElementType t =? dt) types with
  | Some t => fn t
  | None => throw (UnsupportedDataType dt)
  end.

Definition Dispatcher (TSrc TDst : ElemType) (context : OpKernelContext)
  (src dst : Tensor) (shape : list N) : M unit :=
  log (CallDispatcher TSrc TDst) ;;;
  TensorCaster TSrc TDst context src dst shape.

Definition SrcDispatcher (TSrc : ElemType) (to : Z) (context : OpKernelContext)
  (src dst : Tensor) (shape : list N) : M unit :=
  log (CallSrcDispatcher TSrc) ;;;
  let DstTypes :=
    List.filter (fun t => negb (bool_decide (t = TSrc))) (EnabledDstTypes cfg) in
  MLTypeCallDispatcher_Invoke DstTypes to
    (fun TDst => Dispatcher TSrc TDst context src dst shape).

(** The two lines that end [Cast::Compute]: dispatch on the source type,
    then, in [SrcDispatcher], on the destination type. *)
Definition Dispatch (from to : Z) (context : OpKernelContext)
  (X Y : Tensor) (shape : list N) : M unit :=
  MLTypeCallDispatcher_Invoke (EnabledSrcTypes cfg) from
    (fun TSrc => SrcDispatcher TSrc to context X Y shape).

(** The kernel: [to_] is the attribute read by the constructor. *)
Record Cast : Type := { to_ : Z }.

Definition Compute (self : Cast) (context : OpKernelContext) : M Status :=
  let X := Input0 context in
  let shape := Shape X in
  Y <- Output context shape ;;
  if (Size shape =? 0)%N then ret Status_OK
  else
    let from := dtype X in
    if from =? to_ self then
      (* will copy if X and Y have different buffers *)
      CopyCpuTensor X Y ;;; ret Status_OK
    else
      Dispatch from (to_ self) context X Y shape ;;; ret Status_OK.

End Casters.

(** ** A reference implementation of the external routines

    One implementation of [Externals], for IEEE 754 arithmetic and the
    "C" locale, with which the model runs on concrete tensors.  The
    properties below are stated for every implementation. *)

Module Reference.

(** *** Binary interchange formats *)

(** The value of an IEEE 754 bit pattern with [mw] trailing significand
    bits and [ew] exponent bits. *)
Definition decode (mw ew : Z) (bits : Z) : spec_float :=
  let sign := Z.testbit bits (mw + ew) in
  let ex := Z.land (Z.shiftr bits mw) (Z.ones ew) in
  let mant := Z.land bits (Z.ones mw) in
  let bias := 2 ^ (ew - 1) - 1 in
  if ex =? Z.ones ew then
    if mant =? 0 then S754_infinity sign else S754_nan
  else if ex =? 0 then
    match mant with
    | Zpos m => S754_finite sign m (1 - bias - mw)
    | _ => S754_zero sign
    end
  else
    match mant + 2 ^ mw with
    | Zpos m => S754_finite sign m (ex - bias - mw)
    | _ => S754_zero sign
    end.

(** The bit pattern of a value of that format (a NaN becomes the quiet
    NaN without payload). *)
Definition encode (mw ew : Z) (f : spec_float) : Z :=
  let bias := 2 ^ (ew - 1) - 1 in
  let sign_bit (s : bool) := if s then 2 ^ (mw + ew) else 0 in
  match f with
  | S754_zero s => sign_bit s
  | S754_infinity s => sign_bit s + Z.shiftl (Z.ones ew) mw
  | S754_nan => Z.shiftl (Z.ones ew) mw + 2 ^ (mw - 1)
  | S754_finite s m e =>
      if Zpos m <? 2 ^ mw then sign_bit s + Zpos m
      else sign_bit s + Z.shiftl (e + bias + mw) mw + (Zpos m - 2 ^ mw)
  end.

(** IEEE half precision to [float]: exact. *)
Definition half_to_float (bits : Z) : spec_float :=
  round_to_format 24 128 (decode 10 5 bits).

(** [float] to IEEE half precision, round to nearest even. *)
Definition float_to_half (f : spec_float) : Z :=
  encode 10 5 (round_to_format 11 16 f).

(** bfloat16 is the upper half of a [float]. *)
Definition bfloat16_to_float (bits : Z) : spec_float :=
  decode 23 8 (Z.shiftl bits 16).

Definition float_to_bfloat16_truncate (f : spec_float) : Z :=
  Z.shiftr (encode 23 8 f) 16.

Definition float_to_bfloat16_rtne (f : spec_float) : Z :=
  encode 7 8 (round_to_format 8 128 f).

(** *** Conversions between arithmetic types *)

(** The integer part of a finite value, toward zero. *)
Definition truncate (f : spec_float) : Z :=
  match f with
  | S754_finite s m e =>
      let a := if 0 <=? e then Zpos m * 2 ^ e else Zpos m / 2 ^ (- e) in
      if s then - a else a
  | _ => 0
  end.

(** The element converted to [float]. *)
Definition to_float (s : ElemType) (v : Value) : spec_float :=
  match s with
  | t_MLFloat16 => half_to_float (as_half v)
  | t_BFloat16 => bfloat16_to_float (as_half v)
  | t_float => as_fp v
  | t_double => double_to_float (as_fp v)
  | _ => binary_normalize 24 128 (as_int v) 0 false
  end.

(** The element converted to [double]; the 16-bit types convert
    through [float]. *)
Definition to_double (s : ElemType) (v : Value) : spec_float :=
  match s with
  | t_MLFloat16 | t_BFloat16 | t_float => round_to_format 53 1024 (to_float s v)
  | t_double => as_fp v
  | _ => binary_normalize 53 1024 (as_int v) 0 false
  end.

(** [cvttsd2si] into a register of [w] bits: the integer part of the
    operand, or the "integer indefinite" value [- 2 ^ (w - 1)] when the
    operand is a NaN, an infinity, or has an integer part that the
    register cannot hold. *)
Definition cvttsd2si (w : Z) (f : spec_float) : Z :=
  match f with
  | S754_nan | S754_infinity _ => - 2 ^ (w - 1)
  | _ =>
      let z := truncate f in
      if (- 2 ^ (w - 1) <=? z) && (z <? 2 ^ (w - 1)) then z else - 2 ^ (w - 1)
  end.

(** A floating value converted to an integer type other than [bool].
    A value whose integer part is outside the range of the destination
    has no defined result in C++; what is given here is what the code
    that compilers emit for x86-64 computes: a conversion into a 32-bit
    register for the destinations of at most 32 bits that are signed or
    narrower than 32 bits, into a 64-bit register for [uint32_t] and
    [int64_t], the low bits being kept; for [uint64_t], values from
    [2 ^ 63] on are converted after subtracting [2 ^ 63]. *)
Definition float_to_integer (d : ElemType) (f : spec_float) : Z :=
  match d with
  | t_int64_t => cvttsd2si 64 f
  | t_uint32_t => wrap_unsigned 32 (cvttsd2si 64 f)
  | t_uint64_t =>
      let z := truncate f in
      if is_finite f && (2 ^ 63 <=? z) then
        if z <? 2 ^ 64 then z else 0
      else
        match f with
        | S754_infinity false => 0
        | _ => wrap_unsigned 64 (cvttsd2si 64 f)
        end
  | _ => narrow_cast_integral d (cvttsd2si 32 f)
  end.

(** [static_cast] between two numeric types, one of them not integral;
    the 16-bit types convert through [float]. *)
Definition cast_floating (s d : ElemType) (v : Value) : Value :=
  match d with
  | t_float => VFp (to_float s v)
  | t_double => VFp (to_double s v)
  | t_MLFloat16 => VHalf (float_to_half (to_float s v))
  | t_BFloat16 => VHalf (float_to_bfloat16_rtne (to_float s v))
  | t_bool => VInt (match to_double s v with S754_zero _ => 0 | _ => 1 end)
  | _ => VInt (float_to_integer d (to_double s v))
  end.

(** *** Floating-point numbers to text: the [%g] conversion *)

Definition digit_char (d : Z) : ascii := ascii_of_N (Z.to_N (48 + d)).

(** The [k] low decimal digits of [n], most significant first. *)
Fixpoint digits_of (k : nat) (n : Z) : list Z :=
  match k with
  | O => []
  | S k' => digits_of k' (n / 10) ++ [n mod 10]
  end.

Fixpoint strip_zeros_rev (l : list Z) : list Z :=
  match l with
  | 0 :: l' => strip_zeros_rev l'
  | _ => l
  end.

Definition strip_trailing_zeros (l : list Z) : list Z :=
  rev (strip_zeros_rev (rev l)).

Definition string_of_digits (l : list Z) : string :=
  string_of_list_ascii (map digit_char l).

(** [floor (log10 (num / den))] for positive [num] and [den]. *)
Definition decimal_exponent (num den : Z) : Z :=
  let reaches (x : Z) :=
    if 0 <=? x then 10 ^ x * den <=? num else den <=? num * 10 ^ (- x) in
  let est := (Z.log2 num - Z.log2 den) * 30103 / 100000 in
  if reaches (est + 1) then est + 1
  else if reaches est then est
  else est - 1.

(** [num / den] to the nearest integer, ties to even. *)
Definition div_nearest_even (num den : Z) : Z :=
  let q := num / den in
  let r := num mod den in
  match Z.compare (2 * r) den with
  | Lt => q
  | Gt => q + 1
  | Eq => if Z.even q then q else q + 1
  end.

Definition with_fraction (int_part : string) (frac : list Z) : string :=
  match strip_trailing_zeros frac with
  | [] => int_part
  | fr => int_part ++ "." ++ string_of_digits fr
  end.

(** The magnitude [num / den], positive, under [%.Pg]. *)
Definition format_g_positive (P : Z) (num den : Z) : string :=
  let X0 := decimal_exponent num den in
  let sh := X0 - P + 1 in
  let D0 := if 0 <=? sh then div_nearest_even num (den * 10 ^ sh)
            else div_nearest_even (num * 10 ^ (- sh)) den in
  let '(D, X) := if D0 =? 10 ^ P then (10 ^ (P - 1), X0 + 1) else (D0, X0) in
  let ds := digits_of (Z.to_nat P) D in
  if (X <? -4) || (P <=? X) then
    let ex := Z.abs X in
    let ex_digits := if ex <? 10 then "0" ++ decimal_of_Z ex else decimal_of_Z ex in
    with_fraction (string_of_digits (firstn 1 ds)) (skipn 1 ds)
      ++ "e" ++ (if X <? 0 then "-" else "+") ++ ex_digits
  else if 0 <=? X then
    with_fraction (string_of_digits (firstn (Z.to_nat (X + 1)) ds))
                  (skipn (Z.to_nat (X + 1)) ds)
  else
    with_fraction "0" (repeat 0 (Z.to_nat (- X - 1)) ++ ds).

(** What a stream with precision [p] and default flags writes for [f]. *)
Definition format_g (p : Z) (f : spec_float) : string :=
  let P := if p <=? 0 then 1 else p in
  match f with
  | S754_zero s => if s then "-0" else "0"
  | S754_infinity s => if s then "-inf" else "inf"
  | S754_nan => "nan"
  | S754_finite s m e =>
      (if s then "-" else "") ++
      (if 0 <=? e then format_g_positive P (Zpos m * 2 ^ e) 1
       else format_g_positive P (Zpos m) (2 ^ (- e)))
  end.

(** *** Text to [double]: [strtod] and [std::stod] *)

Definition to_lower (c : ascii) : ascii :=
  let n := N_of_ascii c in
  if ((65 <=? n) && (n <=? 90))%N then ascii_of_N (n + 32) else c.

(** [rest] when [s] is [prefix] followed by [rest], letters compared
    without case ([prefix] is in lower case). *)
Fixpoint skip_prefix (prefix s : string) : option string :=
  match prefix, s with
  | EmptyString, _ => Some s
  | String p prefix', String c s' =>
      if Ascii.eqb p (to_lower c) then skip_prefix prefix' s' else None
  | String _ _, EmptyString => None
  end.

Definition hex_digit_of (c : ascii) : option Z :=
  let n := Z.of_N (N_of_ascii (to_lower c)) in
  if (48 <=? n) && (n <=? 57) then Some (n - 48)
  else if (97 <=? n) && (n <=? 102) then Some (n - 87)
  else None.

(** A run of digits at the head of [s]: its value on top of [acc], the
    number of digits on top of [n], and what follows. *)
Fixpoint scan_run (digit : ascii -> option Z) (base : Z) (s : string)
  (acc n : Z) : Z * Z * string :=
  match s with
  | String c s' =>
      match digit c with
      | Some d => scan_run digit base s' (base * acc + d) (n + 1)
      | None => (acc, n, s)
      end
  | EmptyString => (acc, n, s)
  end.

Definition scan_sign (s : string) : bool * string :=
  match s with
  | String "-" r => (true, r)
  | String "+" r => (false, r)
  | _ => (false, s)
  end.

(** Digits, an optional point, digits: the value of all digits read as
    one integer, how many digits there are in all and how many follow
    the point, and what is left. *)
Definition scan_mantissa (digit : ascii -> option Z) (base : Z) (s : string)
  : Z * Z * Z * string :=
  let '(m1, n1, r1) := scan_run digit base s 0 0 in
  match r1 with
  | String "." r =>
      let '(m2, n2, r2) := scan_run digit base r m1 0 in
      (m2, n1 + n2, n2, r2)
  | _ => (m1, n1, 0, r1)
  end.

(** The exponent part introduced by [marker], 0 when there is none. *)
Definition scan_exponent (marker : ascii) (s : string) : Z :=
  match s with
  | String c r =>
      if Ascii.eqb marker (to_lower c) then
        let '(neg, r') := scan_sign r in
        let '(v, n, _) := scan_run digit_of 10 r' 0 0 in
        if n =? 0 then 0 else if neg then - v else v
      else 0
  | EmptyString => 0
  end.

(** The value of precision 53 and of exponent range [emax] nearest to
    [±m * 10 ^ k]. *)
Definition decimal_to_binary (emax : Z) (neg : bool) (m k : Z) : spec_float :=
  match m with
  | Zpos p =>
      if 0 <=? k then binary_normalize 53 emax (cond_Zopp neg (m * 10 ^ k)) 0 neg
      else SFdiv 53 emax (S754_finite neg p 0)
                         (S754_finite false (Z.to_pos (10 ^ (- k))) 0)
  | _ => S754_zero neg
  end.

(** The [double] nearest to [±m * 10 ^ k]. *)
Definition decimal_to_double (neg : bool) (m k : Z) : spec_float :=
  decimal_to_binary 1024 neg m k.

(** Whether the magnitude of [v] is [num / den], for [den] positive. *)
Definition is_exactly (num den : Z) (v : spec_float) : bool :=
  match v with
  | S754_zero _ => num =? 0
  | S754_finite _ m e =>
      if 0 <=? e then num =? Zpos m * 2 ^ e * den
      else num * 2 ^ (- e) =? Zpos m * den
  | _ => false
  end.

(** Whether [w], the number rounded to 53 bits without the lower bound
    of [double] on the exponent, is below the least normal [double]. *)
Definition is_tiny (w : spec_float) : bool :=
  match w with
  | S754_zero _ => true
  | S754_finite _ m e => Zpos (digits2_pos m) + e <=? - 1022
  | _ => false
  end.

(** [strtod]: the value and whether [errno] is set to [ERANGE]; [None]
    when no conversion is performed.  [ERANGE] is reported when the
    result overflows, and when it underflows: the number is not zero,
    is below the least normal [double] and is not the value returned
    (the C standard leaves the report of underflow to the
    implementation; this is what glibc does). *)
Definition strtod (s : string) : option (spec_float * bool) :=
  let '(neg, s2) := scan_sign (skip_spaces s) in
  let decimal :=
    let '(m, n, nfrac, r) := scan_mantissa digit_of 10 s2 in
    if n =? 0 then None
    else
      let k := scan_exponent "e" r - nfrac in
      let v := decimal_to_double neg m k in
      let exact := if 0 <=? k then is_exactly (m * 10 ^ k) 1 v
                   else is_exactly m (10 ^ (- k)) v in
      Some (v, std_isinf v
               || (is_tiny (decimal_to_binary 16384 neg m k) && negb exact)) in
  match skip_prefix "inf" s2, skip_prefix "nan" s2, skip_prefix "0x" s2 with
  | Some _, _, _ => Some (S754_infinity neg, false)
  | _, Some _, _ => Some (S754_nan, false)
  | _, _, Some h =>
      let '(m, n, nfrac, r) := scan_mantissa hex_digit_of 16 h in
      if n =? 0 then decimal
      else
        let k := scan_exponent "p" r - 4 * nfrac in
        let v := binary_normalize 53 1024 (cond_Zopp neg m) k neg in
        let exact := if 0 <=? k then is_exactly (m * 2 ^ k) 1 v
                     else is_exactly m (2 ^ (- k)) v in
        Some (v, std_isinf v
                 || (is_tiny (binary_normalize 53 16384 (cond_Zopp neg m) k neg)
                     && negb exact))
  | _, _, _ => decimal
  end.

Definition stod (s : string) : Result ParseError spec_float :=
  match strtod s with
  | None => Throw invalid_argument
  | Some (_, true) => Throw out_of_range
  | Some (v, false) => Ok v
  end.

(** The reference implementation, with the conversions of the
    framework's [MLFloat16] (round to nearest even) and [BFloat16]
    (the upper half of the [float]). *)
#[export] Instance externals : Externals := {|
  ostream_put_floating := format_g;
  std_stod := stod;
  MLFloat16_to_float := half_to_float;
  BFloat16_to_float := bfloat16_to_float;
  float_to_MLFloat16 := float_to_half;
  float_to_BFloat16 := float_to_bfloat16_truncate;
  eigen_cast_floating := cast_floating
|}.

End Reference.

(** ** Notions the properties are stated with *)

(** [std::numeric_limits<T>::min()] and [max()] of the integral types. *)
Definition int_min (t : ElemType) : Z :=
  if is_unsigned t then 0 else - 2 ^ (bit_width t - 1).

Definition int_max (t : ElemType) : Z :=
  match t with
  | t_bool => 1
  | _ => if is_unsigned t then 2 ^ bit_width t - 1 else 2 ^ (bit_width t - 1) - 1
  end.

Definition in_range (t : ElemType) (z : Z) : Prop :=
  int_min t <= z <= int_max t.

(** The integer types whose values a stream writes in decimal: all but
    the two character types. *)
Definition prints_in_decimal (t : ElemType) : bool :=
  is_integral t && negb (bit_width t =? 8).

(** The widest parser of the destination's category, as the exception
    it throws on [input], if any. *)
Definition error_of {A} (r : Result ParseError A) : option ParseError :=
  match r with Ok _ => None | Throw e => Some e end.

Definition wide_parser_error `{Externals} (d : ElemType) (input : string)
  : option ParseError :=
  if is_integral d then
    if is_unsigned d then error_of (stoull input) else error_of (stoll input)
  else error_of (std_stod input).


(** Text that is an integer numeral and nothing else: an optional sign,
    then one or more decimal digits. *)
Fixpoint all_digits (s : string) : bool :=
  match s with
  | String c s' => match digit_of c with Some _ => all_digits s' | None => false end
  | EmptyString => true
  end.

Definition is_numeral (s : string) : bool :=
  match s with
  | String _ _ => all_digits s
  | EmptyString => false
  end.

Definition well_formed_integer (s : string) : bool :=
  match s with
  | String "-" r => is_numeral r
  | String "+" r => is_numeral r
  | _ => is_numeral s
  end.

(** Whether [s] is empty or starts with a character that is no digit. *)
Definition stops_scan (s : string) : bool :=
  match s with
  | String c _ => match digit_of c with Some _ => false | None => true end
  | EmptyString => true
  end.

(** The exception a string tensor with elements [xs] makes the
    conversion to [d] throw: that of the first element that fails. *)
Fixpoint first_parse_error `{Externals} (d : ElemType) (xs : list Value)
  : option ParseError :=
  match xs with
  | [] => None
  | x :: xs' =>
      match CastFromString d (as_str x) with
      | Throw e => Some e
      | Ok _ => first_parse_error d xs'
      end
  end.

(** The build with every supported type enabled. *)
Definition full_build (amd64 : bool) : BuildConfig :=
  {| M_AMD64 := amd64;
     EnabledSrcTypes := SupportedSrcTypes;
     EnabledDstTypes := SupportedDstTypes |}.

(** The element types a [TensorProto_DataType] value may stand for in a
    type list. *)
Definition enabled (types : list ElemType) (dt : Z) : Prop :=
  exists t, In t types /\ ToTensorProtoElementType t = dt.

Definition initial_state (h : gmap addr (list Value)) : State :=
  {| heap := h; output0 := None; trace := [] |}.

(** [m] leaves every buffer outside [S] as it found it. *)
Definition preserves_outside {A} (S : addr -> Prop) (m : M A) : Prop :=
  forall st b, ~ S b -> heap (snd (m st)) !! b = heap st !! b.

(** [m] throws exceptions of [P] only. *)
Definition throws_only {A} (P : Exception -> Prop) (m : M A) : Prop :=
  forall st e, fst (m st) = Throw e -> P e.

Definition is_StdException (e : Exception) : Prop :=
  exists pe, e = StdException pe.

Definition is_unsupported {A} (r : Result Exception A) : bool :=
  match r with
  | Throw (UnsupportedDataType _) => true
  | _ => false
  end.

(** The elements of a tensor: the first [Size] cells of its buffer. *)
Definition tensor_elements (h : gmap addr (list Value)) (T : Tensor) : list Value :=
  take (N.to_nat (Size (Shape T))) (default [] (h !! data T)).

Definition not_unsupported (e : Exception) : Prop :=
  forall dt, e <> UnsupportedDataType dt.

(** A kernel context around the input [X], for an output of element
    type [to] on the buffer [out]. *)
Definition context_for (X : Tensor) (to : Z) (out : addr) : OpKernelContext :=
  {| Input0 := X; Output0_type := to; Output0_data := out;
     TempSpaceAllocator := true |}.

(** The output tensor of a context. *)
Definition Output0 (context : OpKernelContext) : Tensor :=
  {| dtype := Output0_type context;
     Shape := Shape (Input0 context);
     data := Output0_data context |}.

(** The element that [TensorCaster<s, d>] writes for the source element
    [v], when [s] is not [std::string] and the specializations for
    [MLFloat16] are not compiled in. *)
Definition caster_element `{Externals} (s d : ElemType) (v : Value) : Value :=
  if decide (d = t_string) then VStr (CastToString s v)
  else eigen_cast s d v.

(** The element that the specializations of [_M_AMD64] write for the
    MLFloat16 element [v]: what MLAS converts it to, and for a
    destination other than [float] what the caster from [float] makes
    of that. *)
Definition fast_path_element `{Externals} (d : ElemType) (v : Value) : Value :=
  let intermediate := VFp (MLFloat16_to_float (as_half v)) in
  if decide (d = t_float) then intermediate
  else caster_element t_float d intermediate.


(** ** Notions of the further properties *)

(** The values [TensorCaster<std::string, d>] writes before it stops:
    those of the elements that come before the first one that fails to
    parse. *)
Fixpoint parsed_prefix `{Externals} (d : ElemType) (xs : list Value) : list Value :=
  match xs with
  | [] => []
  | x :: xs' =>
      match CastFromString d (as_str x) with
      | Ok y => y :: parsed_prefix d xs'
      | Throw _ => []
      end
  end.

(** Whether a buffer element is a value of the kind [d]: an integer of
    the range of an integral kind, a floating-point number for [float]
    and [double], 16 bits for the two 16-bit kinds, a text for
    [std::string]. *)
Definition has_kind (d : ElemType) (v : Value) : Prop :=
  match v with
  | VInt z => is_integral d = true /\ in_range d z
  | VFp _ => is_floating_point d = true
  | VHalf _ => d = t_MLFloat16 \/ d = t_BFloat16
  | VStr _ => d = t_string
  end.

(** [m] neither makes a buffer that outlives it nor releases one. *)
Definition keeps_buffers {A} (m : M A) : Prop :=
  forall st, dom (heap (snd (m st))) = dom (heap st).

(** * Properties *)

(** ** Text rendering of floating-point values *)

Lemma digits2_pos_size (m : positive) : digits2_pos m = Pos.size m.
Proof. induction m; simpl; congruence. Qed.

Lemma iter_xO_pow2 (p : positive) : Z.pos (Pos.iter xO xH p) = 2 ^ Z.pos p.
Proof.
  induction p as [|p IH] using Pos.peano_ind.
  - reflexivity.
  - rewrite Pos.iter_succ, Pos2Z.inj_succ, Z.pow_succ_r by lia.
    rewrite <- IH. reflexivity.
Qed.

Lemma canonical_top_mantissa (prec emax : Z) (m : positive) :
  0 < prec ->
  canonical_mantissa prec emax m (emax - prec) = true ->
  (m <= Pos.iter xO xH (Z.to_pos prec) - 1)%positive.
Proof.
  intros Hprec Hcan. unfold canonical_mantissa, fexp in Hcan.
  apply Z.eqb_eq in Hcan. rewrite digits2_pos_size in Hcan.
  assert (Hsz : Z.pos (Pos.size m) <= prec) by lia.
  assert (Hlt : (m < 2 ^ Pos.size m)%positive) by apply Pos.size_gt.
  assert (Hiter : Z.pos (Pos.iter xO xH (Z.to_pos prec)) = 2 ^ prec).
  { rewrite iter_xO_pow2. f_equal. lia. }
  assert (Hpow : Z.pos (2 ^ Pos.size m) <= 2 ^ prec).
  { rewrite Pos2Z.inj_pow. apply Z.pow_le_mono_r; lia. }
  assert (1 < Pos.iter xO xH (Z.to_pos prec))%positive by lia.
  lia.
Qed.

(** No finite value of a format is below the format's [lowest()]. *)
Lemma finite_not_below_lowest (t : ElemType) (v : spec_float) :
  is_finite v = true ->
  valid_binary (float_prec t) (float_emax t) v = true ->
  SFltb v (numeric_limits_lowest t) = false.
Proof.
  intros Hfin Hval. destruct v as [s|s| |s m e]; try discriminate.
  - destruct s; reflexivity.
  - simpl in Hval. unfold bounded in Hval.
    apply andb_true_iff in Hval as [Hcan Hle]. apply Z.leb_le in Hle.
    unfold numeric_limits_lowest, SFmax_float, SFltb. simpl.
    destruct s; [| reflexivity].
    destruct (Z.compare_spec e (float_emax t - float_prec t)) as [Heq|Hlt|Hgt];
      [| reflexivity | lia].
    subst e. apply canonical_top_mantissa in Hcan; [| destruct t; reflexivity].
    unfold Pos.le in Hcan. rewrite Pos.compare_cont_spec. simpl.
    destruct (Pos.compare m _); simpl; try reflexivity. congruence.
Qed.

(** C5.  [CastToString] of a floating-point value writes "NaN" for a
    not-a-number, "INF" for positive infinity and "-INF" for negative
    infinity; every finite value is written by the stream under
    precision 8, that is with 8 significant digits; and no finite value
    of the source type is below the type's lowest value, so that the
    "-INF" of the comparison with [lowest()] is that of negative
    infinity alone.  The 16-bit types are promoted to [float] first. *)
Theorem CastToString_floating_point `{Externals} (s : ElemType) (v : spec_float) :
  CastToString_floating s v =
    match v with
    | S754_nan => "NaN"
    | S754_infinity false => "INF"
    | S754_infinity true => "-INF"
    | S754_zero _ | S754_finite _ _ _ => ostream_put_floating 8 v
    end
  /\ CastToString t_float (VFp v) = CastToString_floating t_float v
  /\ CastToString t_double (VFp v) = CastToString_floating t_double v
  /\ (forall bits, CastToString t_MLFloat16 (VHalf bits)
                   = CastToString_floating t_float (MLFloat16_to_float bits))
  /\ (forall bits, CastToString t_BFloat16 (VHalf bits)
                   = CastToString_floating t_float (BFloat16_to_float bits))
  /\ (is_finite v = true ->
      valid_binary (float_prec s) (float_emax s) v = true ->
      SFltb v (numeric_limits_lowest s) = false).
Proof.
  split; [| repeat split; try reflexivity; apply finite_not_below_lowest].
  unfold CastToString_floating.
  destruct v as [sg|sg| |sg m e]; simpl; try reflexivity.
  destruct sg; reflexivity.
Qed.

(** The [float] 1.5 is finite and valid, hence not below [lowest()],
    and is written under precision 8. *)
Lemma CastToString_floating_point_witness :
  let v := S754_finite false 12582912 (-23) in
  CastToString_floating (H := Reference.externals) t_float v = "1.5"
  /\ SFltb v (numeric_limits_lowest t_float) = false.
Proof.
  destruct (CastToString_floating_point (H := Reference.externals) t_float
              (S754_finite false 12582912 (-23)))
    as (Htext & _ & _ & _ & _ & Hlowest).
  split; [exact Htext | apply Hlowest; reflexivity].
Defined.
(** ** Rounding into a format *)

Section Rounding.
Variables prec emax : Z.



















End Rounding.


(** ** Text to numbers *)

Lemma narrow_cast_integral_range (d : ElemType) (z : Z) :
  is_integral d = true -> in_range d (narrow_cast_integral d z).
Proof.
  unfold in_range, int_min, int_max, narrow_cast_integral, wrap_signed, wrap_unsigned.
  intros Hd. destruct d; try discriminate; simpl;
    try (destruct (z =? 0); lia);
    match goal with
    | |- context [?a mod ?m] =>
        let H := fresh in
        assert (H := Z.mod_pos_bound a m ltac:(lia)); lia
    end.
Qed.

Lemma narrow_cast_integral_congruent (d : ElemType) (z : Z) :
  is_integer_kind d = true ->
  narrow_cast_integral d z mod 2 ^ bit_width d = z mod 2 ^ bit_width d.
Proof.
  unfold narrow_cast_integral, wrap_signed, wrap_unsigned.
  intros Hd. destruct d; try discriminate; simpl bit_width; cbv iota beta;
    simpl is_unsigned; cbv iota;
    try (apply Z.mod_mod; lia);
    match goal with
    | |- ((?z + ?h) mod ?m - ?h) mod ?m = _ =>
        rewrite Zminus_mod, Z.mod_mod by lia;
        rewrite <- Zminus_mod; f_equal; lia
    end.
Qed.

Lemma narrow_cast_integral_id (d : ElemType) (z : Z) :
  is_integral d = true -> in_range d z -> narrow_cast_integral d z = z.
Proof.
  unfold in_range, int_min, int_max, narrow_cast_integral, wrap_signed, wrap_unsigned.
  intros Hd Hz. destruct d; try discriminate; simpl in *;
    try (destruct (Z.eqb_spec z 0); lia);
    try (apply Z.mod_small; lia);
    rewrite Z.mod_small; lia.
Qed.

(** The exception of the conversion is that of the widest parser. *)
Lemma CastFromString_error `{Externals} (d : ElemType) (input : string) :
  d <> t_string ->
  error_of (CastFromString d input) = wide_parser_error d input.
Proof.
  intros Hd. unfold wide_parser_error.
  destruct d; try congruence; simpl;
    unfold CastFromString_floating, CastFromString_unsigned, CastFromString_signed;
    match goal with
    | |- context [std_stod input] => destruct (std_stod input)
    | |- context [stoull input] => destruct (stoull input)
    | |- context [stoll input] => destruct (stoll input)
    end; reflexivity.
Qed.





(** C10.  When the widest parser of an integer destination's category
    reads the value [v] from the text, the conversion raises no error,
    whatever the range of the destination: the destination receives
    the value of its own range that is congruent to [v] modulo [2 ^ w],
    [w] being its width ([v] itself when [v] is in range). *)
Theorem CastFromString_narrows_modulo `{Externals}
  (d : ElemType) (input : string) (v : Z) :
  is_integer_kind d = true ->
  (if is_unsigned d then stoull input else stoll input) = Ok v ->
  exists r,
    CastFromString d input = Ok (VInt r)
    /\ in_range d r
    /\ r mod 2 ^ bit_width d = v mod 2 ^ bit_width d
    /\ (in_range d v -> r = v).
Proof.
  intros Hd Hparse. exists (narrow_cast_integral d v).
  assert (Hi : is_integral d = true) by (destruct d; try discriminate; reflexivity).
  split; [| split; [| split]].
  - destruct d; try discriminate; simpl in *;
      unfold CastFromString_unsigned, CastFromString_signed;
      rewrite Hparse; reflexivity.
  - apply narrow_cast_integral_range, Hi.
  - apply narrow_cast_integral_congruent, Hd.
  - apply narrow_cast_integral_id, Hi.
Qed.

(** The text "300" read into a [uint8_t], and "-129" into an [int8_t]. *)
Lemma CastFromString_narrows_modulo_witness :
  (exists r,
     CastFromString (H := Reference.externals) t_uint8_t "300" = Ok (VInt r)
     /\ in_range t_uint8_t r
     /\ r mod 2 ^ bit_width t_uint8_t = 300 mod 2 ^ bit_width t_uint8_t
     /\ (in_range t_uint8_t 300 -> r = 300))
  /\ CastFromString (H := Reference.externals) t_uint8_t "300" = Ok (VInt 44)
  /\ CastFromString (H := Reference.externals) t_int8_t "-129" = Ok (VInt 127).
Proof.
  split; [| split; reflexivity].
  apply (CastFromString_narrows_modulo t_uint8_t "300" 300); reflexivity.
Defined.

(** ** Integers to text and back *)

Lemma append_String (c : ascii) (s t : string) :
  (String c s ++ t)%string = String c (s ++ t).
Proof. reflexivity. Qed.

Lemma append_Empty (t : string) : ("" ++ t)%string = t.
Proof. reflexivity. Qed.

Lemma append_empty_r (s : string) : (s ++ "")%string = s.
Proof.
  induction s as [|c s IH]; [reflexivity |].
  rewrite append_String, IH. reflexivity.
Qed.

Lemma scan_digits_stop (rest : string) (acc : Z) (n : nat) :
  stops_scan rest = true -> scan_digits rest acc n = (acc, n).
Proof.
  destruct rest as [|c r]; [reflexivity |]. simpl.
  destruct (digit_of c); [discriminate | reflexivity].
Qed.

Lemma scan_digits_uint_pos (d : Decimal.uint) (rest : string) (acc : positive) (n : nat) :
  stops_scan rest = true ->
  scan_digits (NilEmpty.string_of_uint d ++ rest) (Z.pos acc) n
  = (Z.pos (Pos.of_uint_acc d acc), (n + Decimal.nb_digits d)%nat).
Proof.
  intros Hrest. revert acc n.
  induction d as [|d IH|d IH|d IH|d IH|d IH|d IH|d IH|d IH|d IH|d IH];
    intros acc n;
    [ simpl; rewrite append_Empty, scan_digits_stop by exact Hrest; f_equal; lia | .. ];
    cbn [NilEmpty.string_of_uint]; rewrite append_String;
    cbn [scan_digits Pos.of_uint_acc Decimal.nb_digits];
    match goal with
    | |- context [digit_of ?c] =>
        let r := eval vm_compute in (digit_of c) in
        change (digit_of c) with r; cbv iota beta
    end;
    match goal with
    | |- scan_digits _ (10 * Z.pos acc + ?k) _ = (Z.pos (Pos.of_uint_acc _ ?a), _) =>
        replace (10 * Z.pos acc + k) with (Z.pos a) by lia
    end;
    rewrite IH; f_equal; lia.
Qed.

Lemma scan_digits_uint_zero (d : Decimal.uint) (rest : string) (n : nat) :
  stops_scan rest = true ->
  scan_digits (NilEmpty.string_of_uint d ++ rest) 0 n
  = (Z.of_N (Pos.of_uint d), (n + Decimal.nb_digits d)%nat).
Proof.
  intros Hrest. revert n.
  induction d as [|d IH|d IH|d IH|d IH|d IH|d IH|d IH|d IH|d IH|d IH];
    intros n;
    [ simpl; rewrite append_Empty, scan_digits_stop by exact Hrest; f_equal; lia | .. ];
    cbn [NilEmpty.string_of_uint]; rewrite append_String;
    cbn [scan_digits Pos.of_uint Decimal.nb_digits];
    match goal with
    | |- context [digit_of ?c] =>
        let r := eval vm_compute in (digit_of c) in
        change (digit_of c) with r; cbv iota beta
    end;
    [ change (10 * 0 + 0) with 0; rewrite IH; f_equal; lia | .. ];
    match goal with
    | |- scan_digits _ (10 * 0 + ?k) _ = _ =>
        change (10 * 0 + k) with (Z.pos (Z.to_pos k))
    end;
    rewrite scan_digits_uint_pos by exact Hrest; simpl; f_equal; lia.
Qed.

(** A text that starts with a digit has neither white space nor a sign
    to skip. *)
Lemma scan_integer_digit_first (c : ascii) (r : string) :
  digit_of c <> None ->
  scan_integer (String c r)
  = match scan_digits (String c r) 0 0%nat with
    | (_, O) => None
    | (v, S _) => Some (false, v)
    end.
Proof.
  intros Hc.
  destruct c as [[] [] [] [] [] [] [] []];
    try (exfalso; apply Hc; reflexivity); reflexivity.
Qed.

Lemma string_of_uint_digit_first (d : Decimal.uint) :
  d <> Decimal.Nil ->
  exists c r, NilEmpty.string_of_uint d = String c r /\ digit_of c <> None.
Proof.
  intros Hd. destruct d; [congruence | ..]; simpl; do 2 eexists;
    (split; [reflexivity | discriminate]).
Qed.

Lemma scan_digits_positive (p : positive) (rest : string) :
  stops_scan rest = true ->
  exists k, scan_digits (NilEmpty.string_of_uint (Pos.to_uint p) ++ rest) 0 0%nat
            = (Z.pos p, S k).
Proof.
  intros Hrest. rewrite scan_digits_uint_zero, Unsigned.of_to by exact Hrest.
  assert (Hnil := Unsigned.to_uint_nonnil p).
  destruct (Pos.to_uint p); [congruence | ..]; eexists; reflexivity.
Qed.

(** The decimal text of a positive number, as the stream writes it. *)
Lemma decimal_of_Z_pos (p : positive) :
  decimal_of_Z (Z.pos p) = NilEmpty.string_of_uint (Pos.to_uint p).
Proof.
  unfold decimal_of_Z. simpl Z.to_int.
  unfold NilZero.string_of_int, NilZero.string_of_uint.
  assert (Hnil := Unsigned.to_uint_nonnil p).
  destruct (Pos.to_uint p); [congruence | ..]; reflexivity.
Qed.

Lemma decimal_of_Z_neg (p : positive) :
  decimal_of_Z (Z.neg p) = String "-" (NilEmpty.string_of_uint (Pos.to_uint p)).
Proof.
  unfold decimal_of_Z. simpl Z.to_int.
  unfold NilZero.string_of_int, NilZero.string_of_uint.
  assert (Hnil := Unsigned.to_uint_nonnil p).
  destruct (Pos.to_uint p); [congruence | ..]; reflexivity.
Qed.

(** [scan_integer] reads back the sign and the magnitude of a number
    written in decimal, whatever follows it. *)
Lemma scan_integer_decimal (z : Z) (rest : string) :
  stops_scan rest = true ->
  scan_integer (decimal_of_Z z ++ rest) = Some (z <? 0, Z.abs z).
Proof.
  intros Hrest. destruct z as [|p|p].
  - change (decimal_of_Z 0 ++ rest)%string with (String "0" rest).
    rewrite scan_integer_digit_first by discriminate.
    cbn [scan_digits]. change (digit_of "0") with (Some 0). cbv iota beta.
    rewrite scan_digits_stop by exact Hrest. reflexivity.
  - rewrite decimal_of_Z_pos.
    destruct (scan_digits_positive p rest Hrest) as [k Hk].
    destruct (string_of_uint_digit_first (Pos.to_uint p)) as (c & r & Heq & Hc);
      [apply Unsigned.to_uint_nonnil |].
    rewrite Heq in *. rewrite append_String in *.
    rewrite scan_integer_digit_first by exact Hc. rewrite Hk. reflexivity.
  - rewrite decimal_of_Z_neg.
    destruct (scan_digits_positive p rest Hrest) as [k Hk].
    rewrite append_String.
    change (scan_integer (String "-" (NilEmpty.string_of_uint (Pos.to_uint p) ++ rest)))
      with (match scan_digits (NilEmpty.string_of_uint (Pos.to_uint p) ++ rest) 0 0%nat with
            | (_, O) => None
            | (v, S _) => Some (true, v)
            end).
    rewrite Hk. reflexivity.
Qed.

(** An integer in the parser's range, written in decimal and followed
    by anything that is not a digit, is read back without error. *)
Lemma stoll_decimal (z : Z) (rest : string) :
  stops_scan rest = true ->
  LLONG_MIN <= z <= LLONG_MAX -> stoll (decimal_of_Z z ++ rest) = Ok z.
Proof.
  intros Hrest Hz. unfold stoll. rewrite scan_integer_decimal by exact Hrest.
  replace (if z <? 0 then - Z.abs z else Z.abs z) with z
    by (destruct (Z.ltb_spec z 0); lia).
  destruct (Z.leb_spec LLONG_MIN z), (Z.leb_spec z LLONG_MAX); try lia. reflexivity.
Qed.

Lemma stoull_decimal (z : Z) (rest : string) :
  stops_scan rest = true ->
  0 <= z <= ULLONG_MAX -> stoull (decimal_of_Z z ++ rest) = Ok z.
Proof.
  intros Hrest Hz. unfold stoull. rewrite scan_integer_decimal by exact Hrest.
  rewrite Z.abs_eq by lia.
  destruct (Z.leb_spec z ULLONG_MAX); [| lia].
  destruct (Z.ltb_spec z 0); [lia | reflexivity].
Qed.

(** The round trip through text is exact for [bool] and for the integer
    types of 16, 32 and 64 bits. *)
Lemma integral_text_round_trip `{Externals} (d : ElemType) (v : Z) :
  prints_in_decimal d = true ->
  in_range d v ->
  CastFromString d (CastToString d (VInt v)) = Ok (VInt v).
Proof.
  intros Hd Hv.
  assert (Hi : is_integral d = true) by (destruct d; try discriminate; reflexivity).
  assert (Hid := narrow_cast_integral_id d v Hi Hv).
  unfold in_range, int_min, int_max in Hv.
  destruct d; try discriminate; simpl in Hv;
    match goal with
    | |- CastFromString ?d (CastToString ?d (VInt v)) = _ =>
        change (CastToString d (VInt v)) with (decimal_of_Z v);
        rewrite <- (append_empty_r (decimal_of_Z v));
        first [ change (CastFromString d (decimal_of_Z v ++ ""))
                  with (CastFromString_unsigned d (decimal_of_Z v ++ ""));
                unfold CastFromString_unsigned;
                rewrite stoull_decimal by (reflexivity || (unfold ULLONG_MAX; lia))
              | change (CastFromString d (decimal_of_Z v ++ ""))
                  with (CastFromString_signed d (decimal_of_Z v ++ ""));
                unfold CastFromString_signed;
                rewrite stoll_decimal
                  by (reflexivity || (unfold LLONG_MIN, LLONG_MAX; lia)) ]
    end;
    unfold map_Result; rewrite Hid; reflexivity.
Qed.

(** C3.  The round trip through text fails for the two 8-bit integer
    types: the stream writes an [int8_t] or [uint8_t] as the character
    with that code, so that 65 is written "A", which [CastFromString]
    rejects, and 53 is written "5", which it reads as 5. *)
Theorem text_round_trip_fails_for_8_bit_integers `{Externals} :
  CastToString t_int8_t (VInt 65) = "A"
  /\ CastFromString t_int8_t (CastToString t_int8_t (VInt 65))
     = Throw invalid_argument
  /\ CastToString t_int8_t (VInt 53) = "5"
  /\ CastFromString t_int8_t (CastToString t_int8_t (VInt 53)) = Ok (VInt 5)
  /\ CastFromString t_uint8_t (CastToString t_uint8_t (VInt 65))
     = Throw invalid_argument
  /\ CastFromString t_uint8_t (CastToString t_uint8_t (VInt 53)) = Ok (VInt 5)
  /\ in_range t_int8_t 65 /\ in_range t_int8_t 53
  /\ in_range t_uint8_t 65 /\ in_range t_uint8_t 53.
Proof.
  unfold in_range. repeat split; try reflexivity; vm_compute; discriminate.
Qed.

(** ** Effects of the casters *)

Section Effects.
Context `{Externals} (cfg : BuildConfig).

Lemma preserves_ret {A} (S : addr -> Prop) (a : A) : preserves_outside S (ret a).
Proof. intros st b _. reflexivity. Qed.

Lemma preserves_throw {A} (S : addr -> Prop) (e : Exception) :
  preserves_outside S (throw (A := A) e).
Proof. intros st b _. reflexivity. Qed.

Lemma preserves_log (S : addr -> Prop) (ev : Event) : preserves_outside S (log ev).
Proof. intros st b _. reflexivity. Qed.

Lemma preserves_load (S : addr -> Prop) (a : addr) (i : nat) :
  preserves_outside S (load a i).
Proof. intros st b _. reflexivity. Qed.

Lemma preserves_store (S : addr -> Prop) (a : addr) (i : nat) (v : Value) :
  S a -> preserves_outside S (store a i v).
Proof.
  intros Ha st b Hb. simpl. apply lookup_alter_ne. intros ->. exact (Hb Ha).
Qed.

Lemma preserves_bind {A B} (S : addr -> Prop) (m : M A) (k : A -> M B) :
  preserves_outside S m ->
  (forall a, preserves_outside S (k a)) ->
  preserves_outside S (bind m k).
Proof.
  intros Hm Hk st b Hb. unfold bind.
  specialize (Hm st b Hb). destruct (m st) as [[a|e] st']; simpl in *.
  - rewrite (Hk a st' b Hb). exact Hm.
  - exact Hm.
Qed.

Lemma preserves_for_loop (S : addr -> Prop) (body : nat -> M unit) (n first : nat) :
  (forall i, preserves_outside S (body i)) ->
  preserves_outside S (for_loop n first body).
Proof.
  intros Hbody. revert first.
  induction n as [|n IH]; intros first; simpl.
  - apply preserves_ret.
  - apply preserves_bind; [apply Hbody | intros _; apply IH].
Qed.

Lemma preserves_weaken {A} (S S' : addr -> Prop) (m : M A) :
  (forall a, S a -> S' a) -> preserves_outside S m -> preserves_outside S' m.
Proof. intros Hsub Hm st b Hb. apply Hm. intros Hs. exact (Hb (Hsub _ Hs)). Qed.

Create HintDb frame.

Local Hint Resolve preserves_ret preserves_throw preserves_log preserves_load
  preserves_store preserves_bind preserves_for_loop : frame.

Lemma TensorCaster_generic_preserves (S : addr -> Prop) s d inp out shape :
  S (data out) -> preserves_outside S (TensorCaster_generic s d inp out shape).
Proof. intros Ho. unfold TensorCaster_generic. auto 6 with frame. Qed.

Lemma TensorCaster_to_string_preserves (S : addr -> Prop) s inp out shape :
  S (data out) -> preserves_outside S (TensorCaster_to_string s inp out shape).
Proof. intros Ho. unfold TensorCaster_to_string. auto 6 with frame. Qed.

Lemma TensorCaster_from_string_preserves (S : addr -> Prop) d inp out shape :
  S (data out) -> preserves_outside S (TensorCaster_from_string d inp out shape).
Proof.
  intros Ho. unfold TensorCaster_from_string.
  apply preserves_for_loop. intros i. apply preserves_bind; [auto with frame |].
  intros x. destruct (CastFromString d (as_str x)); auto with frame.
Qed.

Lemma TensorCaster_MLFloat16_float_preserves (S : addr -> Prop) inp out shape :
  S (data out) -> preserves_outside S (TensorCaster_MLFloat16_float inp out shape).
Proof. intros Ho. unfold TensorCaster_MLFloat16_float, MlasConvertHalfToFloatBuffer. auto 6 with frame. Qed.

Lemma TensorCaster_primary_preserves (S : addr -> Prop) s d inp out shape :
  S (data out) -> preserves_outside S (TensorCaster_primary s d inp out shape).
Proof.
  intros Ho. unfold TensorCaster_primary.
  apply preserves_bind; [auto with frame | intros _].
  repeat case_decide;
    auto using TensorCaster_to_string_preserves,
      TensorCaster_from_string_preserves, TensorCaster_generic_preserves.
Qed.

(** The intermediate buffer is new when it is made and gone when the
    function is left: outside the output buffer nothing has changed. *)
Lemma CastMLFloat16ThroughFloat_preserves d context inp out shape :
  preserves_outside (fun a => a = data out)
    (CastMLFloat16ThroughFloat d context inp out shape).
Proof.
  intros st b Hb. unfold CastMLFloat16ThroughFloat.
  destruct (negb (TempSpaceAllocator context)); [reflexivity |].
  unfold bind at 1, MakeUniquePtr, finally.
  set (a := fresh (dom (heap st))).
  set (st1 := set_heap _ st).
  match goal with |- context [let '(r, st') := ?m st1 in _] => set (body := m) end.
  assert (Hbody : preserves_outside (fun x => x = a \/ x = data out) body).
  { unfold body. apply preserves_bind; [auto with frame | intros _].
    apply preserves_bind; [| intros _].
    - apply TensorCaster_MLFloat16_float_preserves. left. reflexivity.
    - apply TensorCaster_primary_preserves. right. reflexivity. }
  assert (Ha : heap st !! a = None).
  { apply not_elem_of_dom. apply is_fresh. }
  destruct (body st1) as [r st2] eqn:Hrun. simpl.
  destruct (decide (b = a)) as [->|Hne].
  - rewrite lookup_delete_eq. symmetry. exact Ha.
  - rewrite lookup_delete_ne by congruence.
    specialize (Hbody st1 b). rewrite Hrun in Hbody. simpl in Hbody.
    rewrite Hbody by tauto. unfold st1. simpl. apply lookup_insert_ne. congruence.
Qed.

Lemma TensorCaster_preserves s d context inp out shape :
  preserves_outside (fun a => a = data out) (TensorCaster cfg s d context inp out shape).
Proof.
  unfold TensorCaster.
  destruct (M_AMD64 cfg && bool_decide (s = t_MLFloat16)).
  - case_decide.
    + apply preserves_bind; [auto with frame | intros _].
      apply TensorCaster_MLFloat16_float_preserves. reflexivity.
    + apply preserves_bind; [auto with frame | intros _].
      apply CastMLFloat16ThroughFloat_preserves.
  - apply TensorCaster_primary_preserves. reflexivity.
Qed.

Lemma MLTypeCallDispatcher_Invoke_preserves {A} (S : addr -> Prop)
  (types : list ElemType) (dt : Z) (fn : ElemType -> M A) :
  (forall t, preserves_outside S (fn t)) ->
  preserves_outside S (MLTypeCallDispatcher_Invoke types dt fn).
Proof.
  intros Hfn. unfold MLTypeCallDispatcher_Invoke.
  apply preserves_bind; [auto with frame | intros _].
  destruct (find _ types); auto with frame.
Qed.

Lemma Dispatch_preserves from to context X Y shape :
  preserves_outside (fun a => a = data Y) (Dispatch cfg from to context X Y shape).
Proof.
  unfold Dispatch. apply MLTypeCallDispatcher_Invoke_preserves. intros s.
  unfold SrcDispatcher. apply preserves_bind; [auto with frame | intros _].
  apply MLTypeCallDispatcher_Invoke_preserves. intros d.
  unfold Dispatcher. apply preserves_bind; [auto with frame | intros _].
  apply TensorCaster_preserves.
Qed.

Lemma CopyCpuTensor_preserves src tgt :
  preserves_outside (fun a => a = data tgt) (CopyCpuTensor src tgt).
Proof.
  unfold CopyCpuTensor. apply preserves_bind; [auto with frame | intros _].
  case_decide; [auto with frame |].
  intros st b Hb. simpl. apply lookup_partial_alter_ne. congruence.
Qed.

Lemma Compute_preserves self context :
  preserves_outside (fun a => a = Output0_data context) (Compute cfg self context).
Proof.
  intros st b Hb. unfold Compute, bind at 1, Output.
  set (Y := {| dtype := _; Shape := _; data := Output0_data context |}).
  set (st1 := {| heap := heap st; output0 := Some Y; trace := trace st |}).
  change (heap st !! b) with (heap st1 !! b). clearbody st1. revert st1 b Hb.
  change (preserves_outside (fun a => a = data Y)
            (if (Size (Shape (Input0 context)) =? 0)%N then ret Status_OK
             else if dtype (Input0 context) =? to_ self
                  then CopyCpuTensor (Input0 context) Y ;;; ret Status_OK
                  else Dispatch cfg (dtype (Input0 context)) (to_ self) context
                         (Input0 context) Y (Shape (Input0 context)) ;;; ret Status_OK)).
  destruct (Size _ =? 0)%N; [auto with frame |].
  destruct (_ =? _); (apply preserves_bind; [| auto with frame]).
  - apply CopyCpuTensor_preserves.
  - apply Dispatch_preserves.
Qed.

End Effects.

(** ** Exceptions of the casters, and dispatch *)

Section Dispatching.
Context `{Externals} (cfg : BuildConfig).

Lemma throws_ret {A} (P : Exception -> Prop) (a : A) : throws_only P (ret a).
Proof. intros st e He. discriminate He. Qed.

Lemma throws_log (P : Exception -> Prop) (ev : Event) : throws_only P (log ev).
Proof. intros st e He. discriminate He. Qed.

Lemma throws_load (P : Exception -> Prop) (a : addr) (i : nat) :
  throws_only P (load a i).
Proof. intros st e He. discriminate He. Qed.

Lemma throws_store (P : Exception -> Prop) (a : addr) (i : nat) (v : Value) :
  throws_only P (store a i v).
Proof. intros st e He. discriminate He. Qed.

Lemma throws_throw {A} (P : Exception -> Prop) (e : Exception) :
  P e -> throws_only P (throw (A := A) e).
Proof. intros Pe st e' He. inversion He. subst. exact Pe. Qed.

Lemma throws_bind {A B} (P : Exception -> Prop) (m : M A) (k : A -> M B) :
  throws_only P m -> (forall a, throws_only P (k a)) -> throws_only P (bind m k).
Proof.
  intros Hm Hk st e. unfold bind. specialize (Hm st).
  destruct (m st) as [[a|e'] st']; simpl in *.
  - apply Hk.
  - intros He. apply Hm. inversion He. reflexivity.
Qed.

Lemma throws_for_loop (P : Exception -> Prop) (body : nat -> M unit) (n first : nat) :
  (forall i, throws_only P (body i)) -> throws_only P (for_loop n first body).
Proof.
  intros Hbody. revert first. induction n as [|n IH]; intros first; simpl.
  - apply throws_ret.
  - apply throws_bind; [apply Hbody | intros _; apply IH].
Qed.

Lemma throws_finally {A} (P : Exception -> Prop) (m : M A) (cleanup : State -> State) :
  throws_only P m -> throws_only P (finally m cleanup).
Proof.
  intros Hm st e. unfold finally. specialize (Hm st e).
  destruct (m st) as [r st']. exact Hm.
Qed.

Create HintDb throws.

Local Hint Resolve throws_ret throws_log throws_load throws_store throws_bind
  throws_for_loop throws_finally : throws.

Lemma TensorCaster_primary_throws s d inp out shape :
  throws_only not_unsupported (TensorCaster_primary s d inp out shape).
Proof.
  unfold TensorCaster_primary. apply throws_bind; [auto with throws | intros _].
  repeat case_decide.
  - unfold TensorCaster_to_string. auto 6 with throws.
  - unfold TensorCaster_from_string. apply throws_for_loop. intros i.
    apply throws_bind; [auto with throws | intros x].
    destruct (CastFromString d (as_str x)); [auto with throws |].
    apply throws_throw. intros dt. discriminate.
  - unfold TensorCaster_generic. auto 6 with throws.
Qed.

(** No caster throws the exception of the dispatcher. *)
Lemma TensorCaster_throws s d context inp out shape :
  throws_only not_unsupported (TensorCaster cfg s d context inp out shape).
Proof.
  unfold TensorCaster.
  destruct (M_AMD64 cfg && bool_decide (s = t_MLFloat16)).
  - case_decide; (apply throws_bind; [auto with throws | intros _]).
    + unfold TensorCaster_MLFloat16_float, MlasConvertHalfToFloatBuffer. auto 6 with throws.
    + unfold CastMLFloat16ThroughFloat.
      destruct (negb (TempSpaceAllocator context)).
      * apply throws_throw. intros dt. discriminate.
      * apply throws_bind; [intros st e He; discriminate He | intros a].
        apply throws_finally.
        apply throws_bind; [auto with throws | intros _].
        apply throws_bind; [| intros _; apply TensorCaster_primary_throws].
        unfold TensorCaster_MLFloat16_float, MlasConvertHalfToFloatBuffer. auto 6 with throws.
  - apply TensorCaster_primary_throws.
Qed.

Lemma ToTensorProtoElementType_inj (t t' : ElemType) :
  ToTensorProtoElementType t = ToTensorProtoElementType t' -> t = t'.
Proof. destruct t, t'; simpl; intros Heq; try reflexivity; discriminate Heq. Qed.

(** The dispatcher finds the type that a value of
    [TensorProto_DataType] stands for, when the list has it. *)
Lemma find_type_Some (types : list ElemType) (t : ElemType) :
  In t types ->
  find (fun t' => ToTensorProtoElementType t' =? ToTensorProtoElementType t) types
  = Some t.
Proof.
  induction types as [|t0 types IH]; intros Hin; [destruct Hin |].
  simpl. destruct (Z.eqb_spec (ToTensorProtoElementType t0) (ToTensorProtoElementType t))
    as [Heq|Hne].
  - f_equal. apply ToTensorProtoElementType_inj, Heq.
  - destruct Hin as [->|Hin]; [congruence | apply IH, Hin].
Qed.

Lemma find_type_None (types : list ElemType) (dt : Z) :
  find (fun t => ToTensorProtoElementType t =? dt) types = None
  <-> ~ enabled types dt.
Proof.
  split.
  - intros Hfind (t & Hin & Hdt).
    apply (find_none _ _ Hfind) in Hin. simpl in Hin. lia.
  - intros Hno. destruct (find _ types) as [t|] eqn:Hfind; [| reflexivity].
    exfalso. apply Hno. apply find_some in Hfind as [Hin Hdt].
    exists t. split; [exact Hin | lia].
Qed.

Lemma find_type_code (types : list ElemType) (dt : Z) (t : ElemType) :
  find (fun t' => ToTensorProtoElementType t' =? dt) types = Some t ->
  In t types /\ ToTensorProtoElementType t = dt.
Proof. intros Hfind. apply find_some in Hfind as [Hin Hdt]. split; [exact Hin | lia]. Qed.

Lemma In_DstTypes (s d : ElemType) (types : list ElemType) :
  In d (List.filter (fun t => negb (bool_decide (t = s))) types)
  <-> In d types /\ d <> s.
Proof.
  rewrite filter_In, negb_true_iff, bool_decide_eq_false. reflexivity.
Qed.

Lemma bind_log {A} (ev : Event) (m : M A) (st : State) :
  (log ev ;;; m)%cast st
  = m {| heap := heap st; output0 := output0 st; trace := trace st ++ [ev] |}.
Proof. reflexivity. Qed.

(** Dispatch on an enabled pair of distinct types reaches the caster of
    that pair. *)
Lemma Dispatch_enabled (s d : ElemType) context X Y shape :
  In s (EnabledSrcTypes cfg) -> In d (EnabledDstTypes cfg) -> s <> d ->
  Dispatch cfg (ToTensorProtoElementType s) (ToTensorProtoElementType d)
    context X Y shape
  = (log (CallMLTypeCallDispatcher (ToTensorProtoElementType s)) ;;;
     log (CallSrcDispatcher s) ;;;
     log (CallMLTypeCallDispatcher (ToTensorProtoElementType d)) ;;;
     log (CallDispatcher s d) ;;;
     TensorCaster cfg s d context X Y shape)%cast.
Proof.
  intros Hs Hd Hne. unfold Dispatch, MLTypeCallDispatcher_Invoke at 1.
  rewrite find_type_Some by exact Hs.
  unfold SrcDispatcher, MLTypeCallDispatcher_Invoke.
  rewrite find_type_Some by (apply In_DstTypes; split; [exact Hd | congruence]).
  reflexivity.
Qed.

(** Dispatch fails as unsupported exactly outside the enabled pairs of
    distinct types. *)
Lemma Dispatch_unsupported_iff (from to : Z) context X Y shape st :
  is_unsupported (fst (Dispatch cfg from to context X Y shape st)) = true
  <-> ~ enabled (EnabledSrcTypes cfg) from
      \/ ~ enabled (EnabledDstTypes cfg) to
      \/ from = to.
Proof.
  unfold Dispatch, MLTypeCallDispatcher_Invoke at 1. rewrite bind_log.
  destruct (find _ (EnabledSrcTypes cfg)) as [s|] eqn:Hsrc.
  - apply find_type_code in Hsrc as [Hs Hfrom].
    unfold SrcDispatcher, MLTypeCallDispatcher_Invoke. rewrite !bind_log.
    destruct (find _ (List.filter _ _)) as [d|] eqn:Hdst.
    + apply find_type_code in Hdst as [Hd Hto]. apply In_DstTypes in Hd as [Hd Hne].
      split.
      * intros Hun. exfalso.
        match type of Hun with
        | is_unsupported (fst (?m ?st')) = true =>
            destruct (m st') as [[u|e] st2] eqn:Hrun; [discriminate |];
            assert (Hthrows : throws_only not_unsupported m)
        end.
        { unfold Dispatcher. apply throws_bind; [auto with throws | intros _].
          apply TensorCaster_throws. }
        specialize (Hthrows _ e ltac:(rewrite Hrun; reflexivity)).
        destruct e; try discriminate. exact (Hthrows dt eq_refl).
      * intros [Hno | [Hno | Heq]]; exfalso.
        -- apply Hno. exists s. tauto.
        -- apply Hno. exists d. tauto.
        -- apply Hne. apply ToTensorProtoElementType_inj. congruence.
    + split; [intros _ | reflexivity].
      apply find_type_None in Hdst.
      destruct (decide (from = to)) as [Heq|Hneq]; [tauto |].
      right. left. intros (d & Hd & Hto). apply Hdst. exists d.
      split; [| exact Hto]. apply In_DstTypes. split; [exact Hd |]. congruence.
  - split; [intros _ | reflexivity].
    left. apply find_type_None, Hsrc.
Qed.

End Dispatching.

(** ** Element-wise loops *)

Section Loops.
Context `{Externals}.

Lemma insert_after_alter (h : gmap addr (list Value)) (b : addr)
  (g : list Value -> list Value) (l : list Value) :
  <[b := l]> (alter g b h) = <[b := l]> h.
Proof.
  apply map_eq. intros k. destruct (decide (k = b)) as [->|Hne].
  - rewrite !lookup_insert_eq. reflexivity.
  - rewrite !lookup_insert_ne by congruence. apply lookup_alter_ne. congruence.
Qed.

(** A loop that reads element [i] of the buffer [a] and writes its image
    under [f] to element [i] of the buffer [b] leaves in [b] the image
    of the elements of [a] -- also when [a] and [b] are one buffer,
    since element [i] is read before it is written and not again. *)
Lemma for_loop_map (f : Value -> Value) (a b : addr) (xs : list Value)
  (n first : nat) (st : State) (zs : list Value) :
  heap st !! b = Some zs ->
  length zs = length xs ->
  (first + n)%nat = length xs ->
  (forall j, (first <= j)%nat -> heap st !! a ≫= (.!! j) = xs !! j) ->
  for_loop n first (fun i => x <- load a i ;; store b i (f x))%cast st
  = (Ok tt, set_heap (insert b (take first zs ++ map f (drop first xs))%list) st).
Proof.
  revert first st zs. induction n as [|n IH]; intros first st zs Hb Hlen Hn Ha.
  - rewrite drop_ge, take_ge, app_nil_r by lia. simpl. unfold ret, set_heap.
    rewrite insert_id by exact Hb. destruct st; reflexivity.
  - destruct (lookup_lt_is_Some_2 xs first ltac:(lia)) as [x Hx].
    cbn [for_loop]. unfold bind at 1, bind at 1, load at 1.
    rewrite Ha, Hx by lia. cbn [default store].
    rewrite (IH (S first) _ (<[first := f x]> zs)).
    + unfold set_heap. cbn [heap output0 trace]. f_equal. f_equal.
      rewrite insert_after_alter. f_equal.
      rewrite (take_S_r _ _ (f x)) by (apply list_lookup_insert_eq; lia).
      rewrite take_insert_ge by lia.
      rewrite (drop_S _ _ _ Hx). cbn [map]. rewrite <- app_assoc. reflexivity.
    + cbn [set_heap heap]. rewrite lookup_alter_eq, Hb. reflexivity.
    + rewrite length_insert. exact Hlen.
    + lia.
    + intros j Hj. cbn [set_heap heap].
      destruct (decide (a = b)) as [->|Hne].
      * rewrite lookup_alter_eq, Hb. cbn [fmap option_fmap option_map mbind option_bind].
        rewrite list_lookup_insert_ne by lia.
        rewrite <- (Ha j) by lia. rewrite Hb. reflexivity.
      * rewrite lookup_alter_ne by congruence. apply Ha. lia.
Qed.

Lemma for_loop_map_all (f : Value -> Value) (a b : addr) (xs zs : list Value)
  (st : State) :
  heap st !! a = Some xs ->
  heap st !! b = Some zs ->
  length zs = length xs ->
  for_loop (length xs) 0%nat (fun i => x <- load a i ;; store b i (f x))%cast st
  = (Ok tt, set_heap (insert b (map f xs)) st).
Proof.
  intros Ha Hb Hlen.
  rewrite (for_loop_map f a b xs (length xs) 0%nat st zs Hb Hlen); [reflexivity | lia |].
  intros j _. rewrite Ha. reflexivity.
Qed.

End Loops.

(** ** The two paths from MLFloat16 *)

Section FastPath.
Context `{Externals}.

Lemma TensorCaster_primary_run (s d : ElemType) (inp out : Tensor)
  (shape : list N) (st : State) (xs ys : list Value) :
  s <> t_string ->
  heap st !! data inp = Some xs ->
  heap st !! data out = Some ys ->
  length xs = N.to_nat (Size shape) ->
  length ys = N.to_nat (Size shape) ->
  TensorCaster_primary s d inp out shape st
  = (Ok tt,
     {| heap := <[data out := map (caster_element s d) xs]> (heap st);
        output0 := output0 st;
        trace := trace st ++ [CallTensorCaster s d] |}).
Proof.
  intros Hs Hin Hout Hxs Hys. unfold TensorCaster_primary. rewrite bind_log.
  unfold caster_element.
  destruct (decide (d = t_string)) as [Hd|Hd];
    [| destruct (decide (s = t_string)) as [|_]; [congruence |]];
    unfold TensorCaster_to_string, TensorCaster_generic; rewrite <- Hxs;
    match goal with
    | |- for_loop _ _ ?body ?st' = _ =>
        erewrite (for_loop_map_all _ (data inp) (data out) xs ys st')
          by (try exact Hin; try exact Hout; lia)
    end; reflexivity.
Qed.

Lemma MlasConvertHalfToFloatBuffer_run (Source Destination : addr)
  (st : State) (xs ys : list Value) :
  heap st !! Source = Some xs ->
  heap st !! Destination = Some ys ->
  length ys = length xs ->
  MlasConvertHalfToFloatBuffer Source Destination (length xs) st
  = (Ok tt,
     set_heap (insert Destination
                 (map (fun x => VFp (MLFloat16_to_float (as_half x))) xs)) st).
Proof.
  intros Hin Hout Hlen. unfold MlasConvertHalfToFloatBuffer.
  apply (for_loop_map_all _ Source Destination xs ys st Hin Hout Hlen).
Qed.






(** For a text destination the two paths write the same text: both
    format the [float] that the MLFloat16 element converts to, the
    overload of [CastToString] by [static_cast<float>] and the fast
    path by MLAS, which is taken from the spec to convert alike. *)
Lemma fast_path_element_string (x : Value) :
  caster_element t_MLFloat16 t_string x = fast_path_element t_string x.
Proof. reflexivity. Qed.


End FastPath.

(** [Cast::Compute] on a non-empty tensor and an enabled pair of
    distinct types: the output tensor is obtained, the two dispatchers
    run, and the caster of the pair does the work. *)
Lemma Compute_dispatches `{Externals} (cfg : BuildConfig) (self : Cast)
  (context : OpKernelContext) (st : State) (s d : ElemType) :
  Size (Shape (Input0 context)) <> 0%N ->
  dtype (Input0 context) = ToTensorProtoElementType s ->
  to_ self = ToTensorProtoElementType d ->
  s <> d ->
  In s (EnabledSrcTypes cfg) ->
  In d (EnabledDstTypes cfg) ->
  Compute cfg self context st
  = (TensorCaster cfg s d context (Input0 context) (Output0 context)
       (Shape (Input0 context)) ;;; ret Status_OK)%cast
      {| heap := heap st;
         output0 := Some (Output0 context);
         trace := (((trace st
                     ++ [CallMLTypeCallDispatcher (ToTensorProtoElementType s)])
                    ++ [CallSrcDispatcher s])
                   ++ [CallMLTypeCallDispatcher (ToTensorProtoElementType d)])
                  ++ [CallDispatcher s d] |}.
Proof.
  intros Hsize Hfrom Hto Hne Hs Hd. unfold Compute, bind at 1, Output.
  destruct (N.eqb_spec (Size (Shape (Input0 context))) 0) as [|_]; [contradiction |].
  rewrite Hfrom, Hto.
  destruct (Z.eqb_spec (ToTensorProtoElementType s) (ToTensorProtoElementType d))
    as [Heq|_]; [apply ToTensorProtoElementType_inj in Heq; contradiction |].
  rewrite Dispatch_enabled by assumption.
  reflexivity.
Qed.




(** ** The dispatcher *)

(** C2.  [Cast::Compute] reaches the two dispatch lines with two
    different type identifiers only (it copies and returns when they
    are the same).  For such a pair ([from], [to]), dispatch fails as
    unsupported exactly when [from] is outside the enabled source types
    or [to] is outside the enabled destination types; and for every
    enabled pair of distinct types it does not fail so, and runs the
    caster of exactly that pair. *)
Theorem Dispatch_closure `{Externals} (cfg : BuildConfig) (from to : Z)
  (context : OpKernelContext) (X Y : Tensor) (shape : list N) (st : State) :
  from <> to ->
  (is_unsupported (fst (Dispatch cfg from to context X Y shape st)) = true
   <-> ~ enabled (EnabledSrcTypes cfg) from
       \/ ~ enabled (EnabledDstTypes cfg) to)
  /\ (forall s d,
        In s (EnabledSrcTypes cfg) -> In d (EnabledDstTypes cfg) -> s <> d ->
        Dispatch cfg (ToTensorProtoElementType s) (ToTensorProtoElementType d)
          context X Y shape
        = (log (CallMLTypeCallDispatcher (ToTensorProtoElementType s)) ;;;
           log (CallSrcDispatcher s) ;;;
           log (CallMLTypeCallDispatcher (ToTensorProtoElementType d)) ;;;
           log (CallDispatcher s d) ;;;
           TensorCaster cfg s d context X Y shape)%cast
        /\ is_unsupported
             (fst (Dispatch cfg (ToTensorProtoElementType s)
                     (ToTensorProtoElementType d) context X Y shape st)) = false).
Proof.
  intros Hdiff. split.
  - rewrite Dispatch_unsupported_iff. tauto.
  - intros s d Hs Hd Hne. split; [apply Dispatch_enabled; assumption |].
    apply not_true_is_false. rewrite Dispatch_unsupported_iff.
    intros [Hno | [Hno | Heq]].
    + apply Hno. exists s. tauto.
    + apply Hno. exists d. tauto.
    + apply Hne, ToTensorProtoElementType_inj, Heq.
Qed.

(** With every supported type enabled, dispatch of ([float], [int32_t])
    runs the caster of that pair and does not fail as unsupported;
    dispatch of (COMPLEX64, [int32_t]) does. *)
Lemma Dispatch_closure_witness :
  let X := {| dtype := 1; Shape := [1%N]; data := 1%positive |} in
  let Y := {| dtype := 6; Shape := [1%N]; data := 2%positive |} in
  let context := context_for X 6 2%positive in
  let st := initial_state {[ 1%positive := [VFp (S754_zero false)];
                             2%positive := [VInt 0] ]} in
  (Dispatch (H := Reference.externals) (full_build true)
     (ToTensorProtoElementType t_float) (ToTensorProtoElementType t_int32_t)
     context X Y [1%N]
   = (log (CallMLTypeCallDispatcher (ToTensorProtoElementType t_float)) ;;;
      log (CallSrcDispatcher t_float) ;;;
      log (CallMLTypeCallDispatcher (ToTensorProtoElementType t_int32_t)) ;;;
      log (CallDispatcher t_float t_int32_t) ;;;
      TensorCaster (H := Reference.externals) (full_build true) t_float t_int32_t
        context X Y [1%N])%cast
   /\ is_unsupported
        (fst (Dispatch (H := Reference.externals) (full_build true)
                (ToTensorProtoElementType t_float)
                (ToTensorProtoElementType t_int32_t) context X Y [1%N] st))
      = false)
  /\ (is_unsupported
        (fst (Dispatch (H := Reference.externals) (full_build true) 14 6
                context X Y [1%N] st)) = true
      <-> ~ enabled (EnabledSrcTypes (full_build true)) 14
          \/ ~ enabled (EnabledDstTypes (full_build true)) 6).
Proof.
  split.
  - apply (proj2 (Dispatch_closure (H := Reference.externals) (full_build true) 1 6
                    (context_for {| dtype := 1; Shape := [1%N]; data := 1%positive |}
                       6 2%positive)
                    {| dtype := 1; Shape := [1%N]; data := 1%positive |}
                    {| dtype := 6; Shape := [1%N]; data := 2%positive |}
                    [1%N]
                    (initial_state {[ 1%positive := [VFp (S754_zero false)];
                                      2%positive := [VInt 0] ]})
                    ltac:(discriminate))
             t_float t_int32_t);
      [simpl; tauto | simpl; tauto | discriminate].
  - apply (proj1 (Dispatch_closure (H := Reference.externals) (full_build true) 14 6
                    (context_for {| dtype := 1; Shape := [1%N]; data := 1%positive |}
                       6 2%positive)
                    {| dtype := 1; Shape := [1%N]; data := 1%positive |}
                    {| dtype := 6; Shape := [1%N]; data := 2%positive |}
                    [1%N]
                    (initial_state {[ 1%positive := [VFp (S754_zero false)];
                                      2%positive := [VInt 0] ]})
                    ltac:(discriminate))).
Defined.

(** ** The operator *)

(** X1.  Seen from [Cast::Compute], which copies when the two types are the
    same and returns at once on an empty tensor, the unsupported-type
    failure is that of a non-empty tensor and of two different types of
    which one is not enabled. *)
Lemma Compute_unsupported_iff `{Externals} (cfg : BuildConfig) (self : Cast)
  (context : OpKernelContext) (st : State) :
  is_unsupported (fst (Compute cfg self context st)) = true
  <-> Size (Shape (Input0 context)) <> 0%N
      /\ dtype (Input0 context) <> to_ self
      /\ (~ enabled (EnabledSrcTypes cfg) (dtype (Input0 context))
          \/ ~ enabled (EnabledDstTypes cfg) (to_ self)).
Proof.
  unfold Compute, bind at 1, Output.
  destruct (N.eqb_spec (Size (Shape (Input0 context))) 0) as [Hz|Hnz].
  { unfold ret. cbn [fst is_unsupported].
    split; [intros Hx; discriminate Hx | intros (Hs & _); contradiction]. }
  destruct (Z.eqb_spec (dtype (Input0 context)) (to_ self)) as [Heq|Hne].
  { unfold CopyCpuTensor, bind, log, ret.
    case_decide; cbn [fst is_unsupported];
      (split; [intros Hx; discriminate Hx | intros (_ & Hd & _); contradiction]). }
  match goal with
  | |- is_unsupported (fst ((?m ;;; ret _)%cast ?st')) = true <-> _ =>
      assert (Hiff := Dispatch_unsupported_iff cfg (dtype (Input0 context))
                        (to_ self) context (Input0 context)
                        {| dtype := Output0_type context;
                           Shape := Shape (Input0 context);
                           data := Output0_data context |}
                        (Shape (Input0 context)) st');
      unfold bind, ret; destruct (m st') as [[u|e] st2]
  end; cbn [fst] in *.
  - split; [intros Hx; discriminate Hx |]. intros (_ & _ & Hout).
    apply Hiff. tauto.
  - rewrite Hiff. tauto.
Qed.


Lemma tensor_elements_same_buffer (h h' : gmap addr (list Value)) (T T' : Tensor) :
  Shape T = Shape T' -> h' !! data T = h !! data T' ->
  tensor_elements h' T = tensor_elements h T'.
Proof. intros Hs Hb. unfold tensor_elements. rewrite Hs, Hb. reflexivity. Qed.

(** C7.  With the destination type equal to the type of the input, the
    operator returns OK with an output whose elements are those of the
    input; the only call it makes is the one buffer copy (none at all
    for an empty tensor), so neither a dispatcher nor a caster runs;
    the copy changes the output buffer alone, and changes nothing when
    the output shares the buffer of the input. *)
Theorem Compute_same_type_copies `{Externals} (cfg : BuildConfig)
  (context : OpKernelContext) (h : gmap addr (list Value)) :
  let X := Input0 context in
  let Y := Output0 context in
  let result := Compute cfg {| to_ := dtype X |} context (initial_state h) in
  fst result = Ok Status_OK
  /\ output0 (snd result) = Some Y
  /\ tensor_elements (heap (snd result)) Y = tensor_elements h X
  /\ trace (snd result)
     = (if (Size (Shape X) =? 0)%N then [] else [CallCopyCpuTensor])
  /\ (forall b, b <> data Y -> heap (snd result) !! b = h !! b)
  /\ (data Y = data X -> heap (snd result) = h)
  /\ (Size (Shape X) <> 0%N -> data Y <> data X ->
      heap (snd result) !! data Y = h !! data X).
Proof.
  intros X Y result. subst result. unfold Compute, bind at 1, Output.
  fold X. cbn [to_]. rewrite Z.eqb_refl.
  destruct (N.eqb_spec (Size (Shape X)) 0) as [Hz|Hnz].
  - simpl. repeat split; try reflexivity; try tauto.
    unfold tensor_elements. cbn [Shape Y Output0]. fold X. rewrite Hz. reflexivity.
  - unfold CopyCpuTensor, bind, log, ret. cbn [data].
    destruct (decide (Output0_data context = data X)) as [Heq|Hne]; simpl.
    + repeat split; try reflexivity; try tauto.
      apply tensor_elements_same_buffer; [reflexivity |]. simpl. rewrite Heq. reflexivity.
    + repeat split; try reflexivity.
      * apply tensor_elements_same_buffer; [reflexivity |]. simpl.
        apply lookup_partial_alter_eq.
      * intros b Hb. apply lookup_partial_alter_ne. simpl in Hb. congruence.
      * intros Heq. simpl in Heq. congruence.
      * intros _ _. apply lookup_partial_alter_eq.
Qed.

(** An [int32_t] tensor 7, -1 cast to [int32_t] into another buffer:
    the output buffer receives the elements, a third buffer is left as
    it is. *)
Lemma Compute_same_type_copies_witness :
  let X := {| dtype := 6; Shape := [2%N]; data := 1%positive |} in
  let context := context_for X 6 2%positive in
  let h : gmap addr (list Value) :=
    {[ 1%positive := [VInt 7; VInt (-1)]; 2%positive := [VInt 0; VInt 0];
       3%positive := [VStr "x"] ]} in
  let result := Compute (H := Reference.externals) (full_build true)
                  {| to_ := 6 |} context (initial_state h) in
  fst result = Ok Status_OK
  /\ tensor_elements (heap (snd result)) (Output0 context) = [VInt 7; VInt (-1)]
  /\ trace (snd result) = [CallCopyCpuTensor]
  /\ heap (snd result) !! 3%positive = h !! 3%positive
  /\ heap (snd result) !! 2%positive = h !! 1%positive.
Proof.
  destruct (Compute_same_type_copies (H := Reference.externals) (full_build true)
              (context_for {| dtype := 6; Shape := [2%N]; data := 1%positive |}
                 6 2%positive)
              {[ 1%positive := [VInt 7; VInt (-1)]; 2%positive := [VInt 0; VInt 0];
                 3%positive := [VStr "x"] ]})
    as (Hok & _ & Helems & Htrace & Hframe & _ & Hcopy).
  split; [exact Hok |]. split; [exact Helems |]. split; [exact Htrace |].
  split; [apply Hframe; discriminate | apply Hcopy; discriminate].
Defined.

(** C8.  On a tensor without elements the operator returns OK at once,
    for every pair of types, enabled or not: the output tensor is there
    with the shape of the input, no call is added to the trace (no
    dispatcher, no caster, no copy) and no buffer is touched. *)
Theorem Compute_empty_tensor `{Externals} (cfg : BuildConfig) (self : Cast)
  (context : OpKernelContext) (st : State) :
  Size (Shape (Input0 context)) = 0%N ->
  Compute cfg self context st
  = (Ok Status_OK,
     {| heap := heap st; output0 := Some (Output0 context); trace := trace st |})
  /\ tensor_elements (heap st) (Output0 context) = [].
Proof.
  intros Hz. unfold Compute, bind, Output. rewrite Hz. simpl.
  split; [reflexivity |]. unfold tensor_elements. simpl. rewrite Hz. reflexivity.
Qed.

(** A tensor of shape 2 x 0 x 3 of type COMPLEX64, which is in no type
    list, cast to COMPLEX128. *)
Lemma Compute_empty_tensor_witness :
  let X := {| dtype := 14; Shape := [2%N; 0%N; 3%N]; data := 1%positive |} in
  let context := context_for X 15 2%positive in
  let st := initial_state {[ 1%positive := []; 2%positive := [] ]} in
  Size (Shape X) = 0%N
  /\ Compute (H := Reference.externals) (full_build true) {| to_ := 15 |} context st
     = (Ok Status_OK,
        {| heap := heap st; output0 := Some (Output0 context); trace := trace st |})
  /\ tensor_elements (heap st) (Output0 context) = [].
Proof.
  split; [reflexivity |].
  apply (Compute_empty_tensor (H := Reference.externals) (full_build true)
           {| to_ := 15 |}
           (context_for {| dtype := 14; Shape := [2%N; 0%N; 3%N]; data := 1%positive |}
              15 2%positive)).
  reflexivity.
Defined.

(** C9 (as amended).  An invocation of the operator changes no buffer
    other than the output buffer: the buffer of the source tensor, when
    it is not also the output buffer, holds after the call what it held
    before; and so does every caster, the intermediate buffer of the
    MLFloat16 path being new when it is made and released when the
    caster returns or throws. *)
Theorem Compute_writes_output_buffer_only `{Externals} (cfg : BuildConfig)
  (self : Cast) (context : OpKernelContext) (st : State) :
  (forall b, b <> Output0_data context ->
     heap (snd (Compute cfg self context st)) !! b = heap st !! b)
  /\ (data (Input0 context) <> Output0_data context ->
      heap (snd (Compute cfg self context st)) !! data (Input0 context)
      = heap st !! data (Input0 context))
  /\ (forall s d inp out shape st0 b, b <> data out ->
        heap (snd (TensorCaster cfg s d context inp out shape st0)) !! b
        = heap st0 !! b).
Proof.
  split; [| split].
  - intros b Hb. apply (Compute_preserves cfg self context st b Hb).
  - intros Hne. apply (Compute_preserves cfg self context st _ Hne).
  - intros s d inp out shape st0 b Hb.
    apply (TensorCaster_preserves cfg s d context inp out shape st0 b Hb).
Qed.

(** A [uint8_t] tensor cast to [bool] into another buffer: the buffer
    of the source is as it was. *)
Lemma Compute_writes_output_buffer_only_witness :
  let X := {| dtype := 2; Shape := [3%N]; data := 1%positive |} in
  let context := context_for X 9 2%positive in
  let st := initial_state {[ 1%positive := [VInt 2; VInt 0; VInt 255];
                             2%positive := [VInt 0; VInt 0; VInt 0] ]} in
  let st' := snd (Compute (H := Reference.externals) (full_build false)
                    {| to_ := 9 |} context st) in
  heap st' !! data (Input0 context) = heap st !! data (Input0 context)
  /\ heap st !! data (Input0 context) = Some [VInt 2; VInt 0; VInt 255]
  /\ heap st' !! Output0_data context = Some [VInt 1; VInt 0; VInt 1].
Proof.
  split; [| split; reflexivity].
  apply (proj1 (proj2 (Compute_writes_output_buffer_only (H := Reference.externals)
                         (full_build false) {| to_ := 9 |}
                         (context_for {| dtype := 2; Shape := [3%N]; data := 1%positive |}
                            9 2%positive)
                         (initial_state {[ 1%positive := [VInt 2; VInt 0; VInt 255];
                                           2%positive := [VInt 0; VInt 0; VInt 0] ]})))).
  discriminate.
Defined.

(** A [uint8_t] tensor cast to [bool] in place (both have elements of
    one byte, and the kernel is registered with [MayInplace(0, 0)]):
    the buffer of the source holds 2, 0, 255 before the call and
    1, 0, 1 after it. *)
Lemma Compute_in_place_overwrites_source :
  let X := {| dtype := 2; Shape := [3%N]; data := 1%positive |} in
  let context := context_for X 9 1%positive in
  let st := initial_state {[ 1%positive := [VInt 2; VInt 0; VInt 255] ]} in
  let st' := snd (Compute (H := Reference.externals) (full_build false)
                    {| to_ := 9 |} context st) in
  heap st !! data X = Some [VInt 2; VInt 0; VInt 255]
  /\ heap st' !! data X = Some [VInt 1; VInt 0; VInt 1]
  /\ ~ (forall (cfg : BuildConfig) (self : Cast) (context : OpKernelContext)
          (st : State),
          heap (snd (Compute (H := Reference.externals) cfg self context st))
            !! data (Input0 context)
          = heap st !! data (Input0 context)).
Proof.
  split; [reflexivity |]. split; [reflexivity |].
  intros Hclaim.
  specialize (Hclaim (full_build false) {| to_ := 9 |}
                (context_for {| dtype := 2; Shape := [3%N]; data := 1%positive |}
                   9 1%positive)
                (initial_state {[ 1%positive := [VInt 2; VInt 0; VInt 255] ]})).
  vm_compute in Hclaim. discriminate Hclaim.
Qed.

(** ** Errors of the text conversion *)

Lemma from_string_step `{Externals} (d : ElemType) (inp out : addr)
  (xs : list Value) (i : nat) (x : Value) (st : State) :
  heap st !! inp = Some xs -> xs !! i = Some x ->
  (x <- load inp i ;;
   match CastFromString d (as_str x) with
   | Ok y => store out i y
   | Throw e => throw (StdException e)
   end)%cast st
  = match CastFromString d (as_str x) with
    | Ok y => store out i y st
    | Throw e => (Throw (StdException e), st)
    end.
Proof.
  intros Hxs Hx. unfold bind, load. rewrite Hxs. simpl. rewrite Hx. simpl.
  destruct (CastFromString d (as_str x)); reflexivity.
Qed.

(** The loop of [TensorCaster<std::string, DstType>] stops at the first
    element that fails to parse, with the exception of that element. *)
Lemma TensorCaster_from_string_result `{Externals} (d : ElemType)
  (inp out : addr) (xs : list Value) (n first : nat) (st : State) :
  inp <> out ->
  heap st !! inp = Some xs ->
  (first + n)%nat = length xs ->
  fst (for_loop n first (fun i =>
         x <- load inp i ;;
         match CastFromString d (as_str x) with
         | Ok y => store out i y
         | Throw e => throw (StdException e)
         end)%cast st)
  = match first_parse_error d (drop first xs) with
    | Some e => Throw (StdException e)
    | None => Ok tt
    end.
Proof.
  intros Hne. revert first st.
  induction n as [|n IH]; intros first st Hxs Hlen.
  - rewrite drop_ge by lia. reflexivity.
  - destruct (lookup_lt_is_Some_2 xs first ltac:(lia)) as [x Hx].
    rewrite (drop_S _ _ _ Hx). cbn [for_loop first_parse_error].
    unfold bind at 1. rewrite (from_string_step d inp out xs first x st Hxs Hx).
    destruct (CastFromString d (as_str x)) as [y|e]; [| reflexivity].
    cbn [store]. apply IH; [| lia].
    simpl. rewrite lookup_alter_ne by congruence. exact Hxs.
Qed.

Lemma fst_bind_ret {A B} (m : M A) (b : B) (st : State) :
  fst ((m ;;; ret b)%cast st)
  = match fst (m st) with Ok _ => Ok b | Throw e => Throw e end.
Proof. unfold bind, ret. destruct (m st) as [[a|e] st']; reflexivity. Qed.

(** The exception of the first element that fails to parse leaves
    [Cast::Compute]; when every element parses, the call returns OK. *)
Lemma Compute_from_string_result `{Externals} (cfg : BuildConfig) (self : Cast)
  (context : OpKernelContext) (st : State) (xs : list Value) (d : ElemType) :
  dtype (Input0 context) = ToTensorProtoElementType t_string ->
  to_ self = ToTensorProtoElementType d ->
  d <> t_string ->
  In t_string (EnabledSrcTypes cfg) ->
  In d (EnabledDstTypes cfg) ->
  heap st !! data (Input0 context) = Some xs ->
  length xs = N.to_nat (Size (Shape (Input0 context))) ->
  xs <> [] ->
  data (Input0 context) <> Output0_data context ->
  fst (Compute cfg self context st)
  = match first_parse_error d xs with
    | Some e => Throw (StdException e)
    | None => Ok Status_OK
    end.
Proof.
  intros Hfrom Hto Hd Hsrc Hdst Hxs Hlen Hnil Hne.
  unfold Compute, bind at 1, Output.
  destruct (N.eqb_spec (Size (Shape (Input0 context))) 0) as [Hz|_].
  { rewrite Hz in Hlen. destruct xs; [congruence | discriminate Hlen]. }
  rewrite Hfrom, Hto.
  destruct (Z.eqb_spec (ToTensorProtoElementType t_string) (ToTensorProtoElementType d))
    as [Heq|_].
  { apply ToTensorProtoElementType_inj in Heq. congruence. }
  rewrite fst_bind_ret.
  rewrite Dispatch_enabled by (assumption || congruence).
  rewrite !bind_log. unfold TensorCaster.
  rewrite (bool_decide_eq_false_2 (t_string = t_MLFloat16)) by discriminate.
  rewrite andb_false_r. unfold TensorCaster_primary. rewrite bind_log.
  destruct (decide (d = t_string)) as [|_]; [congruence |].
  destruct (decide (t_string = t_string)) as [_|]; [| congruence].
  unfold TensorCaster_from_string. cbn [data].
  rewrite (TensorCaster_from_string_result d _ _ xs); cbn [heap];
    [| exact Hne | exact Hxs | lia].
  rewrite drop_0. destruct (first_parse_error d xs); reflexivity.
Qed.

Lemma stoll_invalid_argument (input : string) :
  stoll input = Throw invalid_argument <-> scan_integer input = None.
Proof.
  unfold stoll. destruct (scan_integer input) as [[neg mag]|].
  - destruct (_ && _); split; discriminate.
  - tauto.
Qed.

Lemma stoull_invalid_argument (input : string) :
  stoull input = Throw invalid_argument <-> scan_integer input = None.
Proof.
  unfold stoull. destruct (scan_integer input) as [[neg mag]|].
  - destruct (_ <=? _); split; discriminate.
  - tauto.
Qed.

Lemma stoll_out_of_range (input : string) :
  stoll input = Throw out_of_range
  <-> exists neg mag, scan_integer input = Some (neg, mag)
        /\ ~ (LLONG_MIN <= (if neg then - mag else mag) <= LLONG_MAX).
Proof.
  unfold stoll. destruct (scan_integer input) as [[neg mag]|].
  - destruct (Z.leb_spec LLONG_MIN (if neg then - mag else mag)),
             (Z.leb_spec (if neg then - mag else mag) LLONG_MAX); simpl;
      (split; [intros Hr;
               first [discriminate Hr | exists neg, mag; split; [reflexivity | lia]]
              | intros (neg' & mag' & Heq & Hout); inversion Heq; subst;
                first [reflexivity | exfalso; lia]]).
  - split; [discriminate | intros (neg & mag & Heq & _); discriminate Heq].
Qed.

Lemma stoull_out_of_range (input : string) :
  stoull input = Throw out_of_range
  <-> exists neg mag, scan_integer input = Some (neg, mag) /\ ULLONG_MAX < mag.
Proof.
  unfold stoull. destruct (scan_integer input) as [[neg mag]|].
  - destruct (Z.leb_spec mag ULLONG_MAX);
      (split; [intros Hr;
               first [discriminate Hr | exists neg, mag; split; [reflexivity | lia]]
              | intros (neg' & mag' & Heq & Hout); inversion Heq; subst;
                first [reflexivity | exfalso; lia]]).
  - split; [discriminate | intros (neg & mag & Heq & _); discriminate Heq].
Qed.

(** C4 (as amended).  Text-to-numeric conversion throws exactly the
    exception of the widest parser of the destination's category:
    [invalid_argument] when, after white space and an optional sign, no
    digit can be read, [out_of_range] when the number read is outside
    the parser's type.  What follows the number is ignored: an integer
    of the parser's range written in decimal is read back without
    error whatever text that is not a digit comes after it.  The
    exception of the first element that fails leaves [Cast::Compute];
    when no element fails, the call returns OK. *)
Theorem text_to_numeric_errors `{Externals} (cfg : BuildConfig) :
  (forall d input, d <> t_string ->
     error_of (CastFromString d input) = wide_parser_error d input)
  /\ (forall input,
        (stoll input = Throw invalid_argument <-> scan_integer input = None)
        /\ (stoull input = Throw invalid_argument <-> scan_integer input = None))
  /\ (forall input,
        (stoll input = Throw out_of_range
         <-> exists neg mag, scan_integer input = Some (neg, mag)
               /\ ~ (LLONG_MIN <= (if neg then - mag else mag) <= LLONG_MAX))
        /\ (stoull input = Throw out_of_range
            <-> exists neg mag, scan_integer input = Some (neg, mag)
                  /\ ULLONG_MAX < mag))
  /\ (forall z rest, stops_scan rest = true ->
        (LLONG_MIN <= z <= LLONG_MAX -> stoll (decimal_of_Z z ++ rest) = Ok z)
        /\ (0 <= z <= ULLONG_MAX -> stoull (decimal_of_Z z ++ rest) = Ok z))
  /\ (forall self context st xs d,
        dtype (Input0 context) = ToTensorProtoElementType t_string ->
        to_ self = ToTensorProtoElementType d ->
        d <> t_string ->
        In t_string (EnabledSrcTypes cfg) ->
        In d (EnabledDstTypes cfg) ->
        heap st !! data (Input0 context) = Some xs ->
        length xs = N.to_nat (Size (Shape (Input0 context))) ->
        xs <> [] ->
        data (Input0 context) <> Output0_data context ->
        fst (Compute cfg self context st)
        = match first_parse_error d xs with
          | Some e => Throw (StdException e)
          | None => Ok Status_OK
          end).
Proof.
  split; [exact CastFromString_error |].
  split; [intros input; split;
          [apply stoll_invalid_argument | apply stoull_invalid_argument] |].
  split; [intros input; split;
          [apply stoll_out_of_range | apply stoull_out_of_range] |].
  split; [intros z rest Hrest; split;
          [apply stoll_decimal | apply stoull_decimal]; exact Hrest |].
  intros self context st xs d. apply Compute_from_string_result.
Qed.

(** A text tensor "42", "x7" cast to [int8_t]: the exception of the
    second element leaves [Compute]. *)
Lemma text_to_numeric_errors_witness :
  let X := {| dtype := 8; Shape := [2%N]; data := 1%positive |} in
  let context := context_for X 3 2%positive in
  let st := initial_state {[ 1%positive := [VStr "42"; VStr "x7"];
                             2%positive := [VInt 0; VInt 0] ]} in
  fst (Compute (H := Reference.externals) (full_build true) {| to_ := 3 |} context st)
  = Throw (StdException invalid_argument)
  /\ stoll ("-128" ++ " apples") = Ok (-128).
Proof.
  destruct (text_to_numeric_errors (H := Reference.externals) (full_build true))
    as (_ & _ & _ & Hread & Hcompute).
  split.
  - apply (Hcompute {| to_ := 3 |}
             (context_for {| dtype := 8; Shape := [2%N]; data := 1%positive |}
                3 2%positive)
             (initial_state {[ 1%positive := [VStr "42"; VStr "x7"];
                               2%positive := [VInt 0; VInt 0] ]})
             [VStr "42"; VStr "x7"] t_int8_t);
      try reflexivity; try discriminate; simpl; tauto.
  - apply (proj1 (Hread (-128) " apples" eq_refl)). vm_compute. split; discriminate.
Defined.

(** The text "12abc" is no integer numeral, and is converted to the
    [int32_t] 12 without error; "20000000000000000000" is an integer
    numeral, and its conversion to [int64_t] throws. *)
Lemma CastFromString_accepts_trailing_text :
  CastFromString (H := Reference.externals) t_int32_t "12abc" = Ok (VInt 12)
  /\ well_formed_integer "12abc" = false
  /\ CastFromString (H := Reference.externals) t_int64_t "20000000000000000000"
     = Throw out_of_range
  /\ well_formed_integer "20000000000000000000" = true
  /\ ~ (forall (d : ElemType) (input : string),
          is_integer_kind d = true ->
          error_of (CastFromString (H := Reference.externals) d input) <> None
          <-> well_formed_integer input = false).
Proof.
  repeat split; try reflexivity.
  intros Hclaim. specialize (Hclaim t_int32_t "12abc" eq_refl).
  destruct Hclaim as [_ Hfail]. apply (Hfail eq_refl). reflexivity.
Qed.

(** * Further properties of the casters and of the operator *)

Section Further.
Context `{Externals}.

(** ** What the casters leave in the output buffer *)

(** The run of [Cast::Compute] on a source other than [std::string],
    outside the MLFloat16 specializations. *)
Lemma Compute_numeric_source_run (cfg : BuildConfig) (self : Cast)
  (context : OpKernelContext) (st : State) (xs ys : list Value) (s d : ElemType) :
  dtype (Input0 context) = ToTensorProtoElementType s ->
  to_ self = ToTensorProtoElementType d ->
  s <> d -> s <> t_string ->
  M_AMD64 cfg = false \/ s <> t_MLFloat16 ->
  In s (EnabledSrcTypes cfg) -> In d (EnabledDstTypes cfg) ->
  heap st !! data (Input0 context) = Some xs ->
  heap st !! Output0_data context = Some ys ->
  length xs = N.to_nat (Size (Shape (Input0 context))) ->
  length ys = N.to_nat (Size (Shape (Input0 context))) ->
  exists tr,
    Compute cfg self context st
    = (Ok Status_OK,
       {| heap := <[Output0_data context := map (caster_element s d) xs]> (heap st);
          output0 := Some (Output0 context);
          trace := tr |}).
Proof.
  intros Hfrom Hto Hne Hstr Hpath Hs Hd Hin Hout Hxs Hys.
  destruct (N.eq_dec (Size (Shape (Input0 context))) 0%N) as [Hz|Hnz].
  - unfold Compute, bind, Output. rewrite Hz. cbn [N.eqb ret].
    rewrite Hz in Hxs, Hys. destruct xs; [| discriminate Hxs].
    destruct ys; [| discriminate Hys]. cbn [map].
    rewrite insert_id by exact Hout. eexists. reflexivity.
  - assert (Hsel : M_AMD64 cfg && bool_decide (s = t_MLFloat16) = false).
    { destruct Hpath as [-> | Hs16]; [reflexivity |].
      rewrite (bool_decide_eq_false_2 _ Hs16). apply andb_false_r. }
    rewrite (Compute_dispatches cfg self context st s d) by assumption.
    unfold TensorCaster. rewrite Hsel. unfold bind.
    erewrite (TensorCaster_primary_run s d (Input0 context) (Output0 context)
                (Shape (Input0 context)) _ xs ys)
      by (assumption || exact Hin || exact Hout).
    eexists. reflexivity.
Qed.

Lemma tensor_elements_written (h : gmap addr (list Value))
  (context : OpKernelContext) (l : list Value) :
  length l = N.to_nat (Size (Shape (Input0 context))) ->
  tensor_elements (<[Output0_data context := l]> h) (Output0 context) = l.
Proof.
  intros Hlen. unfold tensor_elements. cbn [Output0 data Shape].
  rewrite lookup_insert_eq. cbn [default]. apply take_ge. lia.
Qed.

(** X2.  A cast from a type other than [std::string], by the caster
    that is not one of the MLFloat16 specializations, never throws: the
    operator returns OK and the output buffer holds, element by
    element, the cast of the input ([CastToString] for a text
    destination, Eigen's cast otherwise) -- whether the output has a
    buffer of its own or shares the input's. *)
Theorem Compute_numeric_source (cfg : BuildConfig) (self : Cast)
  (context : OpKernelContext) (st : State) (xs ys : list Value) (s d : ElemType) :
  dtype (Input0 context) = ToTensorProtoElementType s ->
  to_ self = ToTensorProtoElementType d ->
  s <> d -> s <> t_string ->
  M_AMD64 cfg = false \/ s <> t_MLFloat16 ->
  In s (EnabledSrcTypes cfg) -> In d (EnabledDstTypes cfg) ->
  heap st !! data (Input0 context) = Some xs ->
  heap st !! Output0_data context = Some ys ->
  length xs = N.to_nat (Size (Shape (Input0 context))) ->
  length ys = N.to_nat (Size (Shape (Input0 context))) ->
  fst (Compute cfg self context st) = Ok Status_OK
  /\ heap (snd (Compute cfg self context st))
     = <[Output0_data context := map (caster_element s d) xs]> (heap st)
  /\ tensor_elements (heap (snd (Compute cfg self context st))) (Output0 context)
     = map (caster_element s d) xs.
Proof.
  intros Hfrom Hto Hne Hstr Hpath Hs Hd Hin Hout Hxs Hys.
  destruct (Compute_numeric_source_run cfg self context st xs ys s d)
    as [tr Hrun]; try assumption.
  rewrite Hrun. cbn [fst snd heap]. split; [reflexivity |].
  split; [reflexivity |]. apply tensor_elements_written.
  rewrite length_map. exact Hxs.
Qed.

(** The loop of [TensorCaster<std::string, DstType>], with what it
    leaves in the output buffer: the values parsed so far, and behind
    them the elements it did not reach. *)
Lemma for_loop_parse (d : ElemType) (inp out : addr) (xs : list Value)
  (n first : nat) (st : State) (zs : list Value) :
  inp <> out ->
  heap st !! inp = Some xs ->
  heap st !! out = Some zs ->
  length zs = length xs ->
  (first + n)%nat = length xs ->
  for_loop n first (fun i =>
    x <- load inp i ;;
    match CastFromString d (as_str x) with
    | Ok y => store out i y
    | Throw e => throw (StdException e)
    end)%cast st
  = (match first_parse_error d (drop first xs) with
     | Some e => Throw (StdException e)
     | None => Ok tt
     end,
     set_heap (insert out
                 (take first zs ++ parsed_prefix d (drop first xs)
                  ++ drop (first + length (parsed_prefix d (drop first xs))) zs)%list)
       st).
Proof.
  intros Hne. revert first st zs.
  induction n as [|n IH]; intros first st zs Hin Hout Hlen Hn.
  - rewrite (drop_ge xs) by lia. cbn [first_parse_error parsed_prefix length app].
    rewrite Nat.add_0_r, take_drop. unfold set_heap.
    rewrite insert_id by exact Hout. destruct st; reflexivity.
  - destruct (lookup_lt_is_Some_2 xs first ltac:(lia)) as [x Hx].
    rewrite (drop_S _ _ _ Hx). cbn [for_loop first_parse_error parsed_prefix].
    unfold bind at 1. rewrite (from_string_step d inp out xs first x st Hin Hx).
    destruct (CastFromString d (as_str x)) as [y|e].
    + cbn [store].
      rewrite (IH (S first) _ (<[first := y]> zs));
        [| cbn [set_heap heap]; rewrite lookup_alter_ne by congruence; exact Hin
         | cbn [set_heap heap]; rewrite lookup_alter_eq, Hout; reflexivity
         | rewrite length_insert; exact Hlen
         | lia ].
      f_equal. unfold set_heap. cbn [heap output0 trace]. f_equal.
      rewrite insert_after_alter. f_equal.
      rewrite (take_S_r _ _ y) by (apply list_lookup_insert_eq; lia).
      rewrite take_insert_ge by lia.
      rewrite drop_insert_lt by lia.
      cbn [length]. rewrite <- app_assoc. cbn [app].
      replace (first + S (length (parsed_prefix d (drop (S first) xs))))%nat
        with (S first + length (parsed_prefix d (drop (S first) xs)))%nat by lia.
      reflexivity.
    + cbn [length app]. rewrite Nat.add_0_r, take_drop. unfold set_heap.
      rewrite insert_id by exact Hout. destruct st; reflexivity.
Qed.

Lemma parsed_prefix_length (d : ElemType) (xs : list Value) :
  (length (parsed_prefix d xs) <= length xs)%nat
  /\ (first_parse_error d xs = None -> length (parsed_prefix d xs) = length xs).
Proof.
  induction xs as [|x xs [IHle IHeq]]; [split; reflexivity |].
  cbn [parsed_prefix first_parse_error length].
  destruct (CastFromString d (as_str x)); cbn [length].
  - split; [lia | intros Hnone; rewrite (IHeq Hnone); reflexivity].
  - split; [lia | discriminate].
Qed.

(** The run of [Cast::Compute] on a text source. *)
Lemma Compute_text_source_run (cfg : BuildConfig) (self : Cast)
  (context : OpKernelContext) (st : State) (xs ys : list Value) (d : ElemType) :
  dtype (Input0 context) = ToTensorProtoElementType t_string ->
  to_ self = ToTensorProtoElementType d ->
  d <> t_string ->
  In t_string (EnabledSrcTypes cfg) -> In d (EnabledDstTypes cfg) ->
  heap st !! data (Input0 context) = Some xs ->
  heap st !! Output0_data context = Some ys ->
  length xs = N.to_nat (Size (Shape (Input0 context))) ->
  length ys = N.to_nat (Size (Shape (Input0 context))) ->
  data (Input0 context) <> Output0_data context ->
  exists tr,
    Compute cfg self context st
    = (match first_parse_error d xs with
       | Some e => Throw (StdException e)
       | None => Ok Status_OK
       end,
       {| heap := <[Output0_data context :=
                      (parsed_prefix d xs
                       ++ drop (length (parsed_prefix d xs)) ys)%list]> (heap st);
          output0 := Some (Output0 context);
          trace := tr |}).
Proof.
  intros Hfrom Hto Hd Hsrc Hdst Hin Hout Hxs Hys Hne.
  destruct (N.eq_dec (Size (Shape (Input0 context))) 0%N) as [Hz|Hnz].
  - unfold Compute, bind, Output. rewrite Hz. cbn [N.eqb ret].
    rewrite Hz in Hxs, Hys. destruct xs; [| discriminate Hxs].
    destruct ys; [| discriminate Hys].
    cbn [first_parse_error parsed_prefix length drop app].
    rewrite insert_id by exact Hout. eexists. reflexivity.
  - rewrite (Compute_dispatches cfg self context st t_string d)
      by (assumption || congruence).
    unfold TensorCaster.
    rewrite (bool_decide_eq_false_2 (t_string = t_MLFloat16)) by discriminate.
    rewrite andb_false_r. unfold TensorCaster_primary. unfold bind at 1.
    rewrite bind_log.
    destruct (decide (d = t_string)) as [|_]; [congruence |].
    destruct (decide (t_string = t_string)) as [_|]; [| congruence].
    unfold TensorCaster_from_string. cbn [data Output0]. rewrite <- Hxs.
    rewrite (for_loop_parse d _ _ xs (length xs) 0%nat _ ys);
      [| exact Hne | exact Hin | exact Hout | lia | lia].
    rewrite drop_0. cbn [take app Nat.add]. unfold set_heap, ret.
    cbn [heap output0 trace].
    destruct (first_parse_error d xs); eexists; reflexivity.
Qed.

(** X3.  A cast from text to a numeric type writes the output buffer in
    index order and stops at the first element that fails to parse:
    after the call the output buffer holds the parsed values of the
    elements before that one, and from there on what it held before the
    call.  When no element fails the output holds the parsed value of
    every element. *)
Theorem Compute_text_source (cfg : BuildConfig) (self : Cast)
  (context : OpKernelContext) (st : State) (xs ys : list Value) (d : ElemType) :
  dtype (Input0 context) = ToTensorProtoElementType t_string ->
  to_ self = ToTensorProtoElementType d ->
  d <> t_string ->
  In t_string (EnabledSrcTypes cfg) -> In d (EnabledDstTypes cfg) ->
  heap st !! data (Input0 context) = Some xs ->
  heap st !! Output0_data context = Some ys ->
  length xs = N.to_nat (Size (Shape (Input0 context))) ->
  length ys = N.to_nat (Size (Shape (Input0 context))) ->
  data (Input0 context) <> Output0_data context ->
  heap (snd (Compute cfg self context st))
  = <[Output0_data context :=
        (parsed_prefix d xs ++ drop (length (parsed_prefix d xs)) ys)%list]> (heap st)
  /\ (first_parse_error d xs = None ->
      fst (Compute cfg self context st) = Ok Status_OK
      /\ tensor_elements (heap (snd (Compute cfg self context st))) (Output0 context)
         = parsed_prefix d xs)
  /\ (forall e, first_parse_error d xs = Some e ->
      fst (Compute cfg self context st) = Throw (StdException e)).
Proof.
  intros Hfrom Hto Hd Hsrc Hdst Hin Hout Hxs Hys Hne.
  destruct (Compute_text_source_run cfg self context st xs ys d)
    as [tr Hrun]; try assumption.
  rewrite Hrun. cbn [fst snd heap].
  split; [reflexivity |]. split.
  - intros Hnone. rewrite Hnone. split; [reflexivity |].
    destruct (parsed_prefix_length d xs) as [_ Hfull]. specialize (Hfull Hnone).
    rewrite drop_ge by lia. rewrite app_nil_r.
    apply tensor_elements_written. lia.
  - intros e He. rewrite He. reflexivity.
Qed.

(** ** Failures *)

(** X4.  Under [_M_AMD64], a cast from MLFloat16 to a type other than
    [float] needs the temporary-space allocator before it reads or
    writes anything: without it the call throws and every buffer is as
    it was.  The cast from MLFloat16 to [float] does not use the
    allocator, and succeeds without it. *)
Theorem Compute_without_temp_space (cfg : BuildConfig) (self : Cast)
  (context : OpKernelContext) (st : State) :
  M_AMD64 cfg = true ->
  dtype (Input0 context) = ToTensorProtoElementType t_MLFloat16 ->
  In t_MLFloat16 (EnabledSrcTypes cfg) ->
  Size (Shape (Input0 context)) <> 0%N ->
  TempSpaceAllocator context = false ->
  (forall d, to_ self = ToTensorProtoElementType d ->
     d <> t_MLFloat16 -> d <> t_float -> In d (EnabledDstTypes cfg) ->
     fst (Compute cfg self context st) = Throw TempSpaceAllocatorFailed
     /\ heap (snd (Compute cfg self context st)) = heap st)
  /\ (forall xs ys, to_ self = ToTensorProtoElementType t_float ->
     In t_float (EnabledDstTypes cfg) ->
     heap st !! data (Input0 context) = Some xs ->
     heap st !! Output0_data context = Some ys ->
     length xs = N.to_nat (Size (Shape (Input0 context))) ->
     length ys = N.to_nat (Size (Shape (Input0 context))) ->
     fst (Compute cfg self context st) = Ok Status_OK
     /\ heap (snd (Compute cfg self context st))
        = <[Output0_data context :=
              map (fun x => VFp (MLFloat16_to_float (as_half x))) xs]> (heap st)).
Proof.
  intros Hamd Hfrom Hsrc Hnz Halloc. split.
  - intros d Hto Hd16 Hdf Hdst.
    rewrite (Compute_dispatches cfg self context st t_MLFloat16 d)
      by (assumption || congruence).
    unfold TensorCaster. rewrite Hamd.
    rewrite bool_decide_eq_true_2 by reflexivity. cbn [andb].
    destruct (decide (d = t_float)) as [|_]; [contradiction |].
    unfold CastMLFloat16ThroughFloat. rewrite Halloc. cbn [negb].
    split; reflexivity.
  - intros xs ys Hto Hdst Hin Hout Hxs Hys.
    rewrite (Compute_dispatches cfg self context st t_MLFloat16 t_float)
      by (assumption || discriminate).
    unfold TensorCaster. rewrite Hamd.
    rewrite bool_decide_eq_true_2 by reflexivity. cbn [andb].
    destruct (decide (t_float = t_float)) as [_|]; [| congruence].
    unfold bind at 1 3. rewrite !bind_log.
    unfold TensorCaster_MLFloat16_float. cbn [data Output0]. rewrite <- Hxs.
    erewrite (MlasConvertHalfToFloatBuffer_run _ _ _ xs ys)
      by (exact Hin || exact Hout || lia).
    split; reflexivity.
Qed.

Lemma Dispatch_unsupported_heap (cfg : BuildConfig) (from to : Z)
  (context : OpKernelContext) (X Y : Tensor) (shape : list N) (st : State) :
  is_unsupported (fst (Dispatch cfg from to context X Y shape st)) = true ->
  heap (snd (Dispatch cfg from to context X Y shape st)) = heap st.
Proof.
  unfold Dispatch, MLTypeCallDispatcher_Invoke at 1 2. rewrite !bind_log.
  destruct (find _ (EnabledSrcTypes cfg)) as [s|]; [| reflexivity].
  unfold SrcDispatcher, MLTypeCallDispatcher_Invoke. rewrite !bind_log.
  destruct (find _ (List.filter _ _)) as [d|]; [| reflexivity].
  intros Hun. exfalso.
  match type of Hun with
  | is_unsupported (fst (?m ?st')) = true =>
      destruct (m st') as [[u|e] st2] eqn:Hrun; [discriminate |];
      assert (Hthrows : throws_only not_unsupported m)
  end.
  { unfold Dispatcher. apply throws_bind; [apply throws_log | intros _].
    apply TensorCaster_throws. }
  specialize (Hthrows _ e ltac:(rewrite Hrun; reflexivity)).
  destruct e; try discriminate. exact (Hthrows dt eq_refl).
Qed.

(** X5.  When [Cast::Compute] fails because a type is not supported, it
    has written nothing: every buffer holds what it held before the
    call. *)
Theorem Compute_unsupported_writes_nothing (cfg : BuildConfig) (self : Cast)
  (context : OpKernelContext) (st : State) :
  is_unsupported (fst (Compute cfg self context st)) = true ->
  heap (snd (Compute cfg self context st)) = heap st.
Proof.
  unfold Compute, bind at 1 2, Output.
  destruct (Size _ =? 0)%N; [intros Hun; discriminate Hun |].
  destruct (_ =? _).
  - unfold CopyCpuTensor, bind, log, ret.
    case_decide; intros Hun; discriminate Hun.
  - match goal with
    | |- is_unsupported (fst ((?m ;;; ret _)%cast ?st')) = true -> _ =>
        assert (Hheap := Dispatch_unsupported_heap cfg (dtype (Input0 context))
                           (to_ self) context (Input0 context)
                           {| dtype := Output0_type context;
                              Shape := Shape (Input0 context);
                              data := Output0_data context |}
                           (Shape (Input0 context)) st');
        unfold bind, ret; destruct (m st') as [[u|e] st2]
    end; cbn [fst snd] in *.
    + intros Hun. discriminate Hun.
    + exact Hheap.
Qed.

(** ** Buffers *)

Lemma keeps_ret {A} (a : A) : keeps_buffers (ret a).
Proof. intros st. reflexivity. Qed.

Lemma keeps_throw {A} (e : Exception) : keeps_buffers (throw (A := A) e).
Proof. intros st. reflexivity. Qed.

Lemma keeps_log (ev : Event) : keeps_buffers (log ev).
Proof. intros st. reflexivity. Qed.

Lemma keeps_load (a : addr) (i : nat) : keeps_buffers (load a i).
Proof. intros st. reflexivity. Qed.

Lemma keeps_store (a : addr) (i : nat) (v : Value) : keeps_buffers (store a i v).
Proof. intros st. simpl. apply dom_alter_L. Qed.

Lemma keeps_bind {A B} (m : M A) (k : A -> M B) :
  keeps_buffers m -> (forall a, keeps_buffers (k a)) -> keeps_buffers (bind m k).
Proof.
  intros Hm Hk st. unfold bind. specialize (Hm st).
  destruct (m st) as [[a|e] st']; simpl in *.
  - rewrite (Hk a st'). exact Hm.
  - exact Hm.
Qed.

Lemma keeps_for_loop (body : nat -> M unit) (n first : nat) :
  (forall i, keeps_buffers (body i)) -> keeps_buffers (for_loop n first body).
Proof.
  intros Hbody. revert first. induction n as [|n IH]; intros first; simpl.
  - apply keeps_ret.
  - apply keeps_bind; [apply Hbody | intros _; apply IH].
Qed.

Create HintDb buffers.

Local Hint Resolve keeps_ret keeps_throw keeps_log keeps_load keeps_store
  keeps_bind keeps_for_loop : buffers.

Lemma TensorCaster_primary_keeps s d inp out shape :
  keeps_buffers (TensorCaster_primary s d inp out shape).
Proof.
  unfold TensorCaster_primary. apply keeps_bind; [auto with buffers | intros _].
  repeat case_decide.
  - unfold TensorCaster_to_string. auto 6 with buffers.
  - unfold TensorCaster_from_string. apply keeps_for_loop. intros i.
    apply keeps_bind; [auto with buffers | intros x].
    destruct (CastFromString d (as_str x)); auto with buffers.
  - unfold TensorCaster_generic. auto 6 with buffers.
Qed.

Lemma MlasConvertHalfToFloatBuffer_keeps Source Destination Count :
  keeps_buffers (MlasConvertHalfToFloatBuffer Source Destination Count).
Proof. unfold MlasConvertHalfToFloatBuffer. auto 6 with buffers. Qed.

(** The intermediate buffer of the two-stage path is made outside the
    live buffers and released on the way out. *)
Lemma CastMLFloat16ThroughFloat_keeps d context inp out shape :
  keeps_buffers (CastMLFloat16ThroughFloat d context inp out shape).
Proof.
  intros st. unfold CastMLFloat16ThroughFloat.
  destruct (negb (TempSpaceAllocator context)); [reflexivity |].
  unfold bind at 1, MakeUniquePtr, finally.
  set (a := fresh (dom (heap st))).
  set (st1 := set_heap _ st).
  match goal with |- context [let '(r, st') := ?m st1 in _] => set (body := m) end.
  assert (Hbody : keeps_buffers body).
  { unfold body. apply keeps_bind; [auto with buffers | intros _].
    apply keeps_bind; [| intros _; apply TensorCaster_primary_keeps].
    unfold TensorCaster_MLFloat16_float. apply MlasConvertHalfToFloatBuffer_keeps. }
  specialize (Hbody st1). destruct (body st1) as [r st2]. simpl in *.
  rewrite dom_delete_L, Hbody. unfold st1. simpl. rewrite dom_insert_L.
  assert (Ha : a ∉ dom (heap st)) by apply is_fresh.
  set_solver.
Qed.

Lemma TensorCaster_keeps (cfg : BuildConfig) s d context inp out shape :
  keeps_buffers (TensorCaster cfg s d context inp out shape).
Proof.
  unfold TensorCaster. destruct (M_AMD64 cfg && bool_decide (s = t_MLFloat16)).
  - case_decide; (apply keeps_bind; [auto with buffers | intros _]).
    + unfold TensorCaster_MLFloat16_float. apply MlasConvertHalfToFloatBuffer_keeps.
    + apply CastMLFloat16ThroughFloat_keeps.
  - apply TensorCaster_primary_keeps.
Qed.

Lemma Dispatch_keeps (cfg : BuildConfig) from to context X Y shape :
  keeps_buffers (Dispatch cfg from to context X Y shape).
Proof.
  unfold Dispatch, MLTypeCallDispatcher_Invoke.
  apply keeps_bind; [auto with buffers | intros _].
  destruct (find _ _); [| auto with buffers].
  unfold SrcDispatcher, MLTypeCallDispatcher_Invoke.
  apply keeps_bind; [auto with buffers | intros _].
  apply keeps_bind; [auto with buffers | intros _].
  destruct (find _ _); [| auto with buffers].
  unfold Dispatcher. apply keeps_bind; [auto with buffers | intros _].
  apply TensorCaster_keeps.
Qed.

(** X6.  Whatever the types and however the call ends -- by return or
    by any of the exceptions -- [Cast::Compute] leaves the set of live
    buffers as it found it, provided the buffers of the input and of
    the output are live when it is called: the intermediate buffer of
    the MLFloat16 path does not outlive the call, and no buffer of the
    caller is released. *)
Theorem Compute_keeps_buffers (cfg : BuildConfig) (self : Cast)
  (context : OpKernelContext) (st : State) :
  is_Some (heap st !! data (Input0 context)) ->
  is_Some (heap st !! Output0_data context) ->
  dom (heap (snd (Compute cfg self context st))) = dom (heap st).
Proof.
  intros [xs Hin] [ys Hout]. unfold Compute, bind at 1, Output.
  destruct (Size _ =? 0)%N; [reflexivity |].
  destruct (_ =? _).
  - unfold CopyCpuTensor, bind, log, ret. cbn [data].
    case_decide; [reflexivity |]. cbn [snd set_heap heap].
    rewrite Hin.
    assert (Hpa : partial_alter (fun _ => Some xs) (Output0_data context) (heap st)
                  = <[Output0_data context := xs]> (heap st)) by reflexivity.
    rewrite Hpa, dom_insert_L.
    assert (Output0_data context ∈ dom (heap st)) by (apply elem_of_dom; eauto).
    set_solver.
  - match goal with
    | |- dom (heap (snd ((?m ;;; ret _)%cast ?st'))) = _ =>
        assert (Hk := Dispatch_keeps cfg (dtype (Input0 context)) (to_ self)
                        context (Input0 context)
                        {| dtype := Output0_type context;
                           Shape := Shape (Input0 context);
                           data := Output0_data context |}
                        (Shape (Input0 context)) st');
        unfold bind, ret; destruct (m st') as [[u|e] st2]
    end; exact Hk.
Qed.

(** ** Integer conversions *)

Lemma mod_pow2_le (a b ws wd : Z) :
  0 <= ws <= wd ->
  a mod 2 ^ wd = b mod 2 ^ wd -> a mod 2 ^ ws = b mod 2 ^ ws.
Proof.
  intros Hw Heq.
  assert (Hdiv : (2 ^ ws | 2 ^ wd)).
  { exists (2 ^ (wd - ws)). rewrite <- Z.pow_add_r by lia. f_equal. lia. }
  rewrite <- (Z.mod_mod_divide a (2 ^ wd) (2 ^ ws) Hdiv).
  rewrite <- (Z.mod_mod_divide b (2 ^ wd) (2 ^ ws) Hdiv).
  rewrite Heq. reflexivity.
Qed.

(** Two values of the range of an integer type that agree modulo
    [2 ^ w] are equal. *)
Lemma in_range_congruent (t : ElemType) (a b : Z) :
  is_integer_kind t = true ->
  in_range t a -> in_range t b ->
  a mod 2 ^ bit_width t = b mod 2 ^ bit_width t -> a = b.
Proof.
  unfold in_range, int_min, int_max.
  intros Ht Ha Hb Heq. destruct t; try discriminate; simpl in *;
    try (rewrite !Z.mod_small in Heq by lia; exact Heq);
    match type of Heq with
    | _ mod ?m = _ =>
        assert (Hs : (a + m / 2) mod m = (b + m / 2) mod m)
          by (rewrite (Z.add_mod a), (Z.add_mod b), Heq by lia; reflexivity);
        change (m / 2) with (Z.div m 2) in Hs;
        let h := eval vm_compute in (m / 2) in
        change (m / 2) with h in Hs;
        rewrite !Z.mod_small in Hs by lia; lia
    end.
Qed.

Lemma bit_width_nonneg (t : ElemType) : 0 <= bit_width t.
Proof. destruct t; simpl; lia. Qed.

Lemma integer_cast_back (s d : ElemType) (v : Z) :
  is_integral s = true -> is_integer_kind d = true ->
  bit_width s <= bit_width d ->
  in_range s v ->
  narrow_cast_integral s (narrow_cast_integral d v) = v.
Proof.
  intros Hs Hd Hw Hv.
  destruct (decide (s = t_bool)) as [->|Hbool].
  - unfold in_range, int_min, int_max in Hv. simpl in Hv.
    assert (Hid : narrow_cast_integral d v = v).
    { apply narrow_cast_integral_id.
      - destruct d; try discriminate; reflexivity.
      - unfold in_range, int_min, int_max. destruct d; try discriminate; simpl; lia. }
    rewrite Hid. simpl. destruct (Z.eqb_spec v 0); lia.
  - assert (Hsk : is_integer_kind s = true).
    { unfold is_integer_kind. rewrite Hs, (bool_decide_eq_false_2 _ Hbool).
      reflexivity. }
    apply (in_range_congruent s); try assumption.
    + apply narrow_cast_integral_range, Hs.
    + rewrite narrow_cast_integral_congruent by exact Hsk.
      apply (mod_pow2_le _ _ (bit_width s) (bit_width d)).
      * split; [apply bit_width_nonneg | exact Hw].
      * apply narrow_cast_integral_congruent, Hd.
Qed.

Lemma has_kind_integral (s : ElemType) (v : Value) :
  is_integral s = true -> has_kind s v ->
  exists z, v = VInt z /\ in_range s z.
Proof.
  intros Hs Hv. destruct v as [z|f|b|t]; simpl in Hv.
  - exists z. tauto.
  - destruct s; discriminate.
  - destruct Hv as [-> | ->]; discriminate.
  - subst s. discriminate.
Qed.

(** X7.  Casting a tensor of an integral type to an integer type that
    is at least as wide (of either signedness) and back gives the
    tensor back: the narrowing on the way back undoes the wrap-around
    of the way out. *)
Theorem integer_cast_round_trip (s d : ElemType) (xs : list Value) :
  is_integral s = true -> is_integer_kind d = true ->
  bit_width s <= bit_width d ->
  Forall (has_kind s) xs ->
  map (caster_element d s) (map (caster_element s d) xs) = xs.
Proof.
  intros Hs Hd Hw Hxs.
  assert (Hdi : is_integral d = true) by (destruct d; try discriminate; reflexivity).
  rewrite map_map. rewrite <- (map_id xs) at 2. apply map_ext_Forall.
  apply (Forall_impl _ _ _ Hxs). intros v Hv.
  destruct (has_kind_integral s v Hs Hv) as (z & -> & Hz).
  unfold caster_element, eigen_cast.
  destruct (decide (d = t_string)) as [->|_]; [discriminate |].
  destruct (decide (s = t_string)) as [->|_]; [discriminate |].
  rewrite Hs, Hdi. cbn [andb as_int].
  rewrite integer_cast_back by assumption. reflexivity.
Qed.

(** ** Signs in the text *)

(** X8.  A negative numeral is no error for an unsigned destination:
    [std::stoull] negates in [unsigned long long], and the narrowing
    keeps the low bits, so that the text of [- k] is converted to
    [(- k) mod 2 ^ w]. *)
Theorem CastFromString_negative_to_unsigned (d : ElemType) (k : Z) (rest : string) :
  is_integer_kind d = true -> is_unsigned d = true ->
  0 < k <= ULLONG_MAX ->
  stops_scan rest = true ->
  CastFromString d (decimal_of_Z (- k) ++ rest)
  = Ok (VInt ((- k) mod 2 ^ bit_width d)).
Proof.
  intros Hd Hu Hk Hrest.
  assert (Hparse : stoull (decimal_of_Z (- k) ++ rest) = Ok (wrap_unsigned 64 (- k))).
  { unfold stoull. rewrite scan_integer_decimal by exact Hrest.
    replace (- k <? 0) with true by (symmetry; apply Z.ltb_lt; lia).
    rewrite Z.abs_neq by lia. rewrite Z.opp_involutive.
    destruct (Z.leb_spec k ULLONG_MAX); [reflexivity | lia]. }
  assert (Hlow : forall w, 0 <= w <= 64 ->
             wrap_unsigned w (wrap_unsigned 64 (- k)) = (- k) mod 2 ^ w).
  { intros w Hw. unfold wrap_unsigned.
    apply (mod_pow2_le _ _ w 64 Hw). apply Z.mod_mod. lia. }
  destruct d; try discriminate;
    match goal with
    | |- CastFromString ?d ?t = _ =>
        change (CastFromString d t)
          with (map_Result (fun x => VInt (narrow_cast_integral d x)) (stoull t))
    end;
    rewrite Hparse; unfold map_Result; do 2 f_equal;
    apply Hlow; simpl; lia.
Qed.

(** X9.  The bits that a text leaves in an integer destination do not
    depend on the signedness of the destination: when the conversions
    to the unsigned and to the signed type of one width both succeed,
    the two values agree modulo [2 ^ w]. *)
Theorem CastFromString_signedness (du ds : ElemType) (input : string) (a b : Z) :
  is_integer_kind du = true -> is_integer_kind ds = true ->
  is_unsigned du = true -> is_unsigned ds = false ->
  bit_width du = bit_width ds ->
  CastFromString du input = Ok (VInt a) ->
  CastFromString ds input = Ok (VInt b) ->
  a mod 2 ^ bit_width ds = b mod 2 ^ bit_width ds.
Proof.
  intros Hdu Hds Hu Hs Hw Ha Hb.
  assert (Hau : exists u, stoull input = Ok u /\ a = narrow_cast_integral du u).
  { destruct du; try discriminate; simpl in Ha;
      unfold CastFromString_unsigned, map_Result in Ha;
      destruct (stoull input) as [u|]; inversion Ha; eauto. }
  assert (Hbs : exists v, stoll input = Ok v /\ b = narrow_cast_integral ds v).
  { destruct ds; try discriminate; simpl in Hb;
      unfold CastFromString_signed, map_Result in Hb;
      destruct (stoll input) as [v|]; inversion Hb; eauto. }
  destruct Hau as (u & Hu' & ->). destruct Hbs as (v & Hv' & ->).
  assert (Huv : u mod 2 ^ 64 = v mod 2 ^ 64).
  { unfold stoull, stoll in *.
    destruct (scan_integer input) as [[neg mag]|]; [| discriminate].
    destruct (mag <=? ULLONG_MAX); [| discriminate].
    destruct (_ && _); [| discriminate].
    inversion Hu'; inversion Hv'; subst. unfold wrap_unsigned.
    destruct neg; [apply Z.mod_mod; lia | reflexivity]. }
  rewrite <- Hw at 1.
  rewrite (narrow_cast_integral_congruent du) by exact Hdu.
  rewrite (narrow_cast_integral_congruent ds) by exact Hds.
  rewrite Hw. apply (mod_pow2_le _ _ (bit_width ds) 64); [| exact Huv].
  destruct ds; try discriminate; simpl; lia.
Qed.

(** ** Kinds of the elements written *)

Lemma map_Result_integral_kind (d : ElemType) (r : Result ParseError Z) (y : Value) :
  is_integral d = true ->
  map_Result (fun x => VInt (narrow_cast_integral d x)) r = Ok y ->
  has_kind d y.
Proof.
  intros Hd. destruct r as [z|e]; [| intros Hy; discriminate Hy].
  intros Hy. injection Hy as <-.
  split; [exact Hd | apply narrow_cast_integral_range, Hd].
Qed.

Lemma map_Result_floating_kind (d : ElemType) (r : Result ParseError spec_float)
  (f : spec_float -> spec_float) (y : Value) :
  is_floating_point d = true ->
  map_Result (fun x => VFp (f x)) r = Ok y ->
  has_kind d y.
Proof.
  intros Hd. destruct r as [z|e]; [| intros Hy; discriminate Hy].
  intros Hy. injection Hy as <-. exact Hd.
Qed.

Lemma map_Result_half_kind (d : ElemType) (r : Result ParseError Value)
  (f : Value -> Z) (y : Value) :
  d = t_MLFloat16 \/ d = t_BFloat16 ->
  map_Result (fun x => VHalf (f x)) r = Ok y ->
  has_kind d y.
Proof.
  intros Hd. destruct r as [z|e]; [| intros Hy; discriminate Hy].
  intros Hy. injection Hy as <-. exact Hd.
Qed.

Lemma CastFromString_has_kind (d : ElemType) (input : string) (y : Value) :
  d <> t_string ->
  CastFromString d input = Ok y -> has_kind d y.
Proof.
  intros Hd Hy.
  destruct d; try congruence;
    match goal with
    | |- has_kind ?t _ =>
        first
          [ exact (map_Result_integral_kind t (stoull input) y eq_refl Hy)
          | exact (map_Result_integral_kind t (stoll input) y eq_refl Hy)
          | exact (map_Result_floating_kind t (std_stod input)
                     (narrow_cast_floating t) y eq_refl Hy)
          | exact (map_Result_half_kind t (CastFromString_floating t_float input)
                     (fun x => float_to_MLFloat16 (as_fp x)) y
                     (or_introl eq_refl) Hy)
          | exact (map_Result_half_kind t (CastFromString_floating t_float input)
                     (fun x => float_to_BFloat16 (as_fp x)) y
                     (or_intror eq_refl) Hy) ]
    end.
Qed.

Lemma parsed_prefix_has_kind (d : ElemType) (xs : list Value) :
  d <> t_string -> Forall (has_kind d) (parsed_prefix d xs).
Proof.
  intros Hd. induction xs as [|x xs IH]; [constructor |].
  cbn [parsed_prefix].
  destruct (CastFromString d (as_str x)) as [y|e] eqn:Hy; [| constructor].
  constructor; [apply (CastFromString_has_kind d _ y Hd Hy) | exact IH].
Qed.

Lemma caster_element_has_kind (s d : ElemType) (v : Value) :
  d = t_string \/ (is_integral s = true /\ is_integral d = true) ->
  has_kind d (caster_element s d v).
Proof.
  unfold caster_element. intros [-> | [Hs Hd]].
  - destruct (decide (t_string = t_string)); [reflexivity | congruence].
  - destruct (decide (d = t_string)) as [->|_]; [discriminate |].
    unfold eigen_cast. rewrite Hs, Hd. simpl.
    split; [exact Hd | apply narrow_cast_integral_range, Hd].
Qed.

(** X10.  The elements that a successful cast leaves in the output are
    values of the destination type whenever the destination is text,
    the source is text, or both types are integral: a text for
    [std::string], an integer within the range of an integral type, a
    floating-point number or 16 bits for a floating destination read
    from text -- whatever the input buffer held, and also when the
    cast runs in place.  (A tensor of [std::string] read from does not
    share its buffer with a numeric output.) *)
Theorem Compute_output_has_kind (cfg : BuildConfig) (self : Cast)
  (context : OpKernelContext) (st : State) (xs ys : list Value) (s d : ElemType) :
  dtype (Input0 context) = ToTensorProtoElementType s ->
  to_ self = ToTensorProtoElementType d ->
  s <> d ->
  d = t_string \/ s = t_string \/ (is_integral s = true /\ is_integral d = true) ->
  M_AMD64 cfg = false \/ s <> t_MLFloat16 ->
  In s (EnabledSrcTypes cfg) -> In d (EnabledDstTypes cfg) ->
  heap st !! data (Input0 context) = Some xs ->
  heap st !! Output0_data context = Some ys ->
  length xs = N.to_nat (Size (Shape (Input0 context))) ->
  length ys = N.to_nat (Size (Shape (Input0 context))) ->
  (s = t_string -> data (Input0 context) <> Output0_data context) ->
  fst (Compute cfg self context st) = Ok Status_OK ->
  Forall (has_kind d)
    (tensor_elements (heap (snd (Compute cfg self context st))) (Output0 context)).
Proof.
  intros Hfrom Hto Hne Hpair Hpath Hs Hd Hin Hout Hxs Hys Hbuf.
  destruct (decide (s = t_string)) as [Hstr|Hstr].
  - specialize (Hbuf Hstr). subst s.
    destruct (Compute_text_source_run cfg self context st xs ys d)
      as [tr Hrun]; try assumption; try congruence.
    rewrite Hrun. cbn [fst snd heap].
    destruct (first_parse_error d xs) eqn:Herr; [intros Hok; discriminate Hok |].
    intros _. destruct (parsed_prefix_length d xs) as [_ Hfull].
    specialize (Hfull Herr).
    rewrite drop_ge by lia. rewrite app_nil_r.
    rewrite tensor_elements_written by lia.
    apply parsed_prefix_has_kind. congruence.
  - destruct (Compute_numeric_source_run cfg self context st xs ys s d)
      as [tr Hrun]; try assumption.
    rewrite Hrun. cbn [fst snd heap]. intros _.
    rewrite tensor_elements_written by (rewrite length_map; exact Hxs).
    apply List.Forall_forall. intros y Hy. apply List.in_map_iff in Hy as (x & <- & _).
    apply caster_element_has_kind. tauto.
Qed.

(** ** Two casts in a row *)

Lemma text_of_integrals_parses (s : ElemType) (xs : list Value) :
  prints_in_decimal s = true ->
  Forall (has_kind s) xs ->
  parsed_prefix s (map (caster_element s t_string) xs) = xs
  /\ first_parse_error s (map (caster_element s t_string) xs) = None.
Proof.
  intros Hs Hxs.
  assert (Hi : is_integral s = true) by (destruct s; try discriminate; reflexivity).
  induction Hxs as [|v xs Hv Hxs [IHp IHe]]; [split; reflexivity |].
  destruct (has_kind_integral s v Hi Hv) as (z & -> & Hz).
  cbn [map parsed_prefix first_parse_error].
  unfold caster_element at 1 3.
  destruct (decide (t_string = t_string)) as [_|]; [| congruence].
  cbn [as_str]. rewrite (integral_text_round_trip s z Hs Hz).
  rewrite IHp, IHe. split; reflexivity.
Qed.

(** X11.  Casting a tensor of [bool] or of a 16-, 32- or 64-bit integer
    type to text and casting the result back to the type gives the
    elements of the tensor back: the second call reads every numeral
    the first one wrote. *)
Theorem Compute_to_text_and_back (cfg : BuildConfig) (s : ElemType)
  (X : Tensor) (text result : addr) (st : State) (xs ys zs : list Value) :
  prints_in_decimal s = true ->
  In s (EnabledSrcTypes cfg) -> In t_string (EnabledDstTypes cfg) ->
  In t_string (EnabledSrcTypes cfg) -> In s (EnabledDstTypes cfg) ->
  dtype X = ToTensorProtoElementType s ->
  Forall (has_kind s) xs ->
  heap st !! data X = Some xs ->
  heap st !! text = Some ys ->
  heap st !! result = Some zs ->
  length xs = N.to_nat (Size (Shape X)) ->
  length ys = N.to_nat (Size (Shape X)) ->
  length zs = N.to_nat (Size (Shape X)) ->
  text <> result ->
  let to_text := context_for X (ToTensorProtoElementType t_string) text in
  let first := Compute cfg {| to_ := ToTensorProtoElementType t_string |} to_text st in
  let back := context_for (Output0 to_text) (ToTensorProtoElementType s) result in
  let second := Compute cfg {| to_ := ToTensorProtoElementType s |} back (snd first) in
  fst first = Ok Status_OK
  /\ fst second = Ok Status_OK
  /\ tensor_elements (heap (snd second)) (Output0 back) = xs.
Proof.
  intros Hs Hsrc Hdst Hsrc' Hdst' Hdt Hkinds Hin Htext Hres Hxs Hys Hzs Hne
    to_text first back second.
  assert (Hns : s <> t_string) by (intros ->; discriminate Hs).
  destruct (Compute_numeric_source_run cfg
              {| to_ := ToTensorProtoElementType t_string |} to_text st xs ys
              s t_string)
    as [tr1 Hrun1]; try assumption; try reflexivity.
  { right. intros ->. discriminate Hs. }
  destruct (text_of_integrals_parses s xs Hs Hkinds) as [Hparsed Hnoerr].
  destruct (Compute_text_source_run cfg
              {| to_ := ToTensorProtoElementType s |} back (snd first)
              (map (caster_element s t_string) xs) zs s)
    as [tr2 Hrun2]; try assumption; try reflexivity.
  - subst first. rewrite Hrun1. cbn [snd heap back context_for Input0 Output0 data].
    apply lookup_insert_eq.
  - subst first. rewrite Hrun1.
    cbn [snd heap to_text back context_for Output0_data Input0].
    rewrite lookup_insert_ne by exact Hne. exact Hres.
  - rewrite length_map. exact Hxs.
  - subst first second. rewrite Hrun2, Hnoerr, Hparsed. rewrite Hrun1.
    cbn [fst snd heap]. split; [reflexivity |]. split; [reflexivity |].
    rewrite drop_ge by lia. rewrite app_nil_r.
    apply (tensor_elements_written _ back xs). exact Hxs.
Qed.

End Further.
(** ** Instances of the further properties

    Each of them is taken with every supported type enabled and with the
    reference routines for what the C++ library provides. *)

(** An [int32_t] tensor 300, -1 cast to [uint8_t]: 44 and 255. *)
Lemma Compute_numeric_source_witness :
  let X := {| dtype := 6; Shape := [2%N]; data := 1%positive |} in
  let context := context_for X 2 2%positive in
  let st := initial_state {[ 1%positive := [VInt 300; VInt (-1)];
                             2%positive := [VInt 0; VInt 0] ]} in
  let result := Compute (H := Reference.externals) (full_build true)
                  {| to_ := 2 |} context st in
  fst result = Ok Status_OK
  /\ tensor_elements (heap (snd result)) (Output0 context) = [VInt 44; VInt 255].
Proof.
  destruct (Compute_numeric_source (H := Reference.externals) (full_build true)
              {| to_ := 2 |}
              (context_for {| dtype := 6; Shape := [2%N]; data := 1%positive |}
                 2 2%positive)
              (initial_state {[ 1%positive := [VInt 300; VInt (-1)];
                                2%positive := [VInt 0; VInt 0] ]})
              [VInt 300; VInt (-1)] [VInt 0; VInt 0] t_int32_t t_uint8_t)
    as (Hok & _ & Helems);
    [ reflexivity | reflexivity | discriminate | discriminate
    | right; discriminate | simpl; tauto | simpl; tauto
    | reflexivity | reflexivity | reflexivity | reflexivity | ].
  split; [exact Hok | exact Helems].
Defined.

(** A text tensor "12", "x", "7" cast to [int32_t]: the call throws at
    the second element, the first is written and the rest of the output
    is as it was. *)
Lemma Compute_text_source_witness :
  let X := {| dtype := 8; Shape := [3%N]; data := 1%positive |} in
  let context := context_for X 6 2%positive in
  let st := initial_state {[ 1%positive := [VStr "12"; VStr "x"; VStr "7"];
                             2%positive := [VInt 0; VInt 0; VInt 0] ]} in
  let result := Compute (H := Reference.externals) (full_build true)
                  {| to_ := 6 |} context st in
  fst result = Throw (StdException invalid_argument)
  /\ heap (snd result)
     = <[2%positive := [VInt 12; VInt 0; VInt 0]]> (heap st).
Proof.
  destruct (Compute_text_source (H := Reference.externals) (full_build true)
              {| to_ := 6 |}
              (context_for {| dtype := 8; Shape := [3%N]; data := 1%positive |}
                 6 2%positive)
              (initial_state {[ 1%positive := [VStr "12"; VStr "x"; VStr "7"];
                                2%positive := [VInt 0; VInt 0; VInt 0] ]})
              [VStr "12"; VStr "x"; VStr "7"] [VInt 0; VInt 0; VInt 0] t_int32_t)
    as (Hheap & _ & Hthrow);
    [ reflexivity | reflexivity | discriminate | simpl; tauto | simpl; tauto
    | reflexivity | reflexivity | reflexivity | reflexivity | discriminate | ].
  split; [exact (Hthrow invalid_argument eq_refl) | exact Hheap].
Defined.

(** Under [_M_AMD64] and without the allocator, an MLFloat16 tensor cast
    to [int32_t]: the call throws and the buffers are as they were. *)
Lemma Compute_without_temp_space_witness :
  let X := {| dtype := 10; Shape := [1%N]; data := 1%positive |} in
  let context := {| Input0 := X; Output0_type := 6; Output0_data := 2%positive;
                    TempSpaceAllocator := false |} in
  let st := initial_state {[ 1%positive := [VHalf 15360];
                             2%positive := [VInt 0] ]} in
  let result := Compute (H := Reference.externals) (full_build true)
                  {| to_ := 6 |} context st in
  fst result = Throw TempSpaceAllocatorFailed
  /\ heap (snd result) = heap st.
Proof.
  destruct (Compute_without_temp_space (H := Reference.externals) (full_build true)
              {| to_ := 6 |}
              {| Input0 := {| dtype := 10; Shape := [1%N]; data := 1%positive |};
                 Output0_type := 6; Output0_data := 2%positive;
                 TempSpaceAllocator := false |}
              (initial_state {[ 1%positive := [VHalf 15360];
                                2%positive := [VInt 0] ]}))
    as [Hfail _];
    [ reflexivity | reflexivity | simpl; tauto | discriminate | reflexivity | ].
  apply (Hfail t_int32_t);
    [ reflexivity | discriminate | discriminate | simpl; tauto ].
Defined.

(** A COMPLEX64 tensor, which is in no type list, cast to [float]: the
    call fails and the buffers are as they were. *)
Lemma Compute_unsupported_writes_nothing_witness :
  let X := {| dtype := 14; Shape := [1%N]; data := 1%positive |} in
  let context := context_for X 1 2%positive in
  let st := initial_state {[ 1%positive := [VInt 0];
                             2%positive := [VFp (S754_zero false)] ]} in
  let result := Compute (H := Reference.externals) (full_build true)
                  {| to_ := 1 |} context st in
  is_unsupported (fst result) = true
  /\ heap (snd result) = heap st.
Proof.
  split; [reflexivity |].
  apply (Compute_unsupported_writes_nothing (H := Reference.externals)
           (full_build true) {| to_ := 1 |}
           (context_for {| dtype := 14; Shape := [1%N]; data := 1%positive |}
              1 2%positive)
           (initial_state {[ 1%positive := [VInt 0];
                             2%positive := [VFp (S754_zero false)] ]})).
  reflexivity.
Defined.

(** Under [_M_AMD64], an MLFloat16 tensor cast to [int32_t] through the
    intermediate buffer: the live buffers after the call are the two of
    before. *)
Lemma Compute_keeps_buffers_witness :
  let X := {| dtype := 10; Shape := [1%N]; data := 1%positive |} in
  let context := context_for X 6 2%positive in
  let st := initial_state {[ 1%positive := [VHalf 15360];
                             2%positive := [VInt 0] ]} in
  dom (heap (snd (Compute (H := Reference.externals) (full_build true)
                    {| to_ := 6 |} context st)))
  = dom (heap st).
Proof.
  apply (Compute_keeps_buffers (H := Reference.externals) (full_build true)
           {| to_ := 6 |}
           (context_for {| dtype := 10; Shape := [1%N]; data := 1%positive |}
              6 2%positive)
           (initial_state {[ 1%positive := [VHalf 15360];
                             2%positive := [VInt 0] ]}));
    eexists; reflexivity.
Defined.

(** An [int16_t] tensor -5, 300 cast to [uint32_t] and back. *)
Lemma integer_cast_round_trip_witness :
  map (caster_element (H := Reference.externals) t_uint32_t t_int16_t)
    (map (caster_element (H := Reference.externals) t_int16_t t_uint32_t)
       [VInt (-5); VInt 300])
  = [VInt (-5); VInt 300].
Proof.
  apply (integer_cast_round_trip (H := Reference.externals) t_int16_t t_uint32_t
           [VInt (-5); VInt 300]);
    [ reflexivity | reflexivity | simpl; lia | ].
  repeat constructor; vm_compute; discriminate.
Defined.

(** The text "-1 km" read as a [uint8_t]: 255. *)
Lemma CastFromString_negative_to_unsigned_witness :
  (decimal_of_Z (- 1) ++ " km")%string = "-1 km"
  /\ (- 1) mod 2 ^ bit_width t_uint8_t = 255
  /\ CastFromString (H := Reference.externals) t_uint8_t
       (decimal_of_Z (- 1) ++ " km")
     = Ok (VInt ((- 1) mod 2 ^ bit_width t_uint8_t)).
Proof.
  split; [reflexivity |]. split; [reflexivity |].
  apply (CastFromString_negative_to_unsigned (H := Reference.externals)
           t_uint8_t 1 " km");
    [ reflexivity | reflexivity | unfold ULLONG_MAX; lia | reflexivity ].
Defined.

(** The text "40000" read as a [uint16_t] and as an [int16_t]: 40000
    and -25536, the same 16 bits. *)
Lemma CastFromString_signedness_witness :
  CastFromString (H := Reference.externals) t_uint16_t "40000" = Ok (VInt 40000)
  /\ CastFromString (H := Reference.externals) t_int16_t "40000" = Ok (VInt (- 25536))
  /\ 40000 mod 2 ^ bit_width t_int16_t = (- 25536) mod 2 ^ bit_width t_int16_t.
Proof.
  split; [reflexivity |]. split; [reflexivity |].
  apply (CastFromString_signedness (H := Reference.externals)
           t_uint16_t t_int16_t "40000" 40000 (- 25536));
    reflexivity.
Defined.

(** A [uint8_t] tensor 2, 0, 255 cast to [bool] in place: the three
    elements left in the buffer are 0 or 1. *)
Lemma Compute_output_has_kind_witness :
  let X := {| dtype := 2; Shape := [3%N]; data := 1%positive |} in
  let context := context_for X 9 1%positive in
  let st := initial_state {[ 1%positive := [VInt 2; VInt 0; VInt 255] ]} in
  let result := Compute (H := Reference.externals) (full_build true)
                  {| to_ := 9 |} context st in
  fst result = Ok Status_OK
  /\ Forall (has_kind t_bool)
       (tensor_elements (heap (snd result)) (Output0 context)).
Proof.
  split; [reflexivity |].
  apply (Compute_output_has_kind (H := Reference.externals) (full_build true)
           {| to_ := 9 |}
           (context_for {| dtype := 2; Shape := [3%N]; data := 1%positive |}
              9 1%positive)
           (initial_state {[ 1%positive := [VInt 2; VInt 0; VInt 255] ]})
           [VInt 2; VInt 0; VInt 255] [VInt 2; VInt 0; VInt 255]
           t_uint8_t t_bool);
    [ reflexivity | reflexivity | discriminate
    | right; right; split; reflexivity
    | right; discriminate | simpl; tauto | simpl; tauto
    | reflexivity | reflexivity | reflexivity | reflexivity
    | intros Hs; discriminate Hs
    | reflexivity ].
Defined.

(** An [int64_t] tensor -42, 9000000000 cast to text and back. *)
Lemma Compute_to_text_and_back_witness :
  let X := {| dtype := 7; Shape := [2%N]; data := 1%positive |} in
  let st := initial_state {[ 1%positive := [VInt (-42); VInt 9000000000];
                             2%positive := [VStr "a"; VStr "b"];
                             3%positive := [VInt 0; VInt 0] ]} in
  let to_text := context_for X (ToTensorProtoElementType t_string) 2%positive in
  let first := Compute (H := Reference.externals) (full_build false)
                 {| to_ := ToTensorProtoElementType t_string |} to_text st in
  let back := context_for (Output0 to_text) (ToTensorProtoElementType t_int64_t)
                3%positive in
  let second := Compute (H := Reference.externals) (full_build false)
                  {| to_ := ToTensorProtoElementType t_int64_t |} back (snd first) in
  fst first = Ok Status_OK
  /\ fst second = Ok Status_OK
  /\ tensor_elements (heap (snd second)) (Output0 back)
     = [VInt (-42); VInt 9000000000].
Proof.
  apply (Compute_to_text_and_back (H := Reference.externals) (full_build false)
           t_int64_t {| dtype := 7; Shape := [2%N]; data := 1%positive |}
           2%positive 3%positive
           (initial_state {[ 1%positive := [VInt (-42); VInt 9000000000];
                             2%positive := [VStr "a"; VStr "b"];
                             3%positive := [VInt 0; VInt 0] ]})
           [VInt (-42); VInt 9000000000] [VStr "a"; VStr "b"] [VInt 0; VInt 0]);
    [ reflexivity | simpl; tauto | simpl; tauto | simpl; tauto | simpl; tauto
    | reflexivity
    | repeat constructor; vm_compute; discriminate
    | reflexivity | reflexivity | reflexivity
    | reflexivity | reflexivity | reflexivity | discriminate ].
Defined.


(** ** The scenarios of the specification, run on the reference implementation *)

Section Scenarios.
Import Reference.

(** A [float] tensor 1.5, NaN, 1e30 cast to text (1.5 is
    12582912 * 2^-23, and the [float] nearest to 1e30 is
    13234890 * 2^76). *)
Example float_to_text_scenario :
  let X := {| dtype := 1; Shape := [3%N]; data := 1%positive |} in
  let context := context_for X 8 2%positive in
  let st := initial_state {[ 1%positive := [VFp (S754_finite false 12582912 (-23)); VFp S754_nan;
                                            VFp (S754_finite false 13234890 76)];
                             2%positive := [VStr ""; VStr ""; VStr ""] ]} in
  let result := Compute (full_build true) {| to_ := 8 |} context st in
  fst result = Ok Status_OK
  /\ tensor_elements (heap (snd result)) (Output0 context)
     = [VStr "1.5"; VStr "NaN"; VStr "1e+30"].
Proof. split; reflexivity. Qed.

(** A text tensor "42", "-7" cast to [int8_t]. *)
Example text_to_int8_scenario :
  let X := {| dtype := 8; Shape := [2%N]; data := 1%positive |} in
  let context := context_for X 3 2%positive in
  let st := initial_state {[ 1%positive := [VStr "42"; VStr "-7"];
                             2%positive := [VInt 0; VInt 0] ]} in
  let result := Compute (full_build true) {| to_ := 3 |} context st in
  fst result = Ok Status_OK
  /\ tensor_elements (heap (snd result)) (Output0 context) = [VInt 42; VInt (-7)].
Proof. split; reflexivity. Qed.

(** A text tensor whose second element is no number: the exception of
    [std::stoll] leaves [Compute], after the first element was written. *)
Example text_to_int8_failure :
  let X := {| dtype := 8; Shape := [2%N]; data := 1%positive |} in
  let context := context_for X 3 2%positive in
  let st := initial_state {[ 1%positive := [VStr "42"; VStr "x7"];
                             2%positive := [VInt 0; VInt 0] ]} in
  let result := Compute (full_build true) {| to_ := 3 |} context st in
  fst result = Throw (StdException invalid_argument)
  /\ tensor_elements (heap (snd result)) (Output0 context) = [VInt 42; VInt 0].
Proof. split; reflexivity. Qed.

(** An MLFloat16 tensor 1, 65504, -5 cast to [int8_t], with and without
    the specializations of [_M_AMD64]: 65504 is outside the range of
    [int8_t], and both builds write the same element for it. *)
Example MLFloat16_to_int8_scenario :
  let X := {| dtype := 10; Shape := [3%N]; data := 1%positive |} in
  let context := context_for X 3 2%positive in
  let st := initial_state {[ 1%positive := [VHalf 15360; VHalf 31743; VHalf 50432];
                             2%positive := [VInt 0; VInt 0; VInt 0] ]} in
  let fast := Compute (full_build true) {| to_ := 3 |} context st in
  let generic := Compute (full_build false) {| to_ := 3 |} context st in
  tensor_elements (heap (snd fast)) (Output0 context) = [VInt 1; VInt (-32); VInt (-5)]
  /\ tensor_elements (heap (snd generic)) (Output0 context)
     = [VInt 1; VInt (-32); VInt (-5)]
  /\ trace (snd fast)
     = [CallMLTypeCallDispatcher 10; CallSrcDispatcher t_MLFloat16;
        CallMLTypeCallDispatcher 3; CallDispatcher t_MLFloat16 t_int8_t;
        CallTensorCaster t_MLFloat16 t_int8_t;
        CallTensorCaster t_MLFloat16 t_float; CallTensorCaster t_float t_int8_t]
  /\ dom (heap (snd fast)) = dom (heap st).
Proof. repeat split; reflexivity. Qed.

(** The values of the round trip of C3 on the kinds that print in
    decimal, and the text of some [float] values under precision 8. *)
Example int16_round_trip :
  CastToString t_int16_t (VInt (-12345)) = "-12345"
  /\ CastFromString t_int16_t "-12345" = Ok (VInt (-12345))
  /\ CastToString t_bool (VInt 1) = "1"
  /\ CastFromString t_bool "1" = Ok (VInt 1).
Proof. repeat split; reflexivity. Qed.

Example float_text_precision_8 :
  map (fun f => CastToString t_float (VFp f))
    [ S754_finite true 8388608 (-23);      (* -1 *)
      S754_finite false 10519393 (-28);    (* 0.0391877927 *)
      S754_finite false 9936816 (-25);     (* 0.296140194 *)
      S754_finite true 16132509 (-27);     (* -0.120196559 *)
      S754_finite false 10485760 (-21);    (* 5 *)
      S754_infinity true; S754_infinity false; S754_nan ]
  = [ "-1"; "0.039187793"; "0.29614019"; "-0.12019656"; "5";
      "-INF"; "INF"; "NaN" ].
Proof. reflexivity. Qed.

End Scenarios.
